(** * Spec-driven-development helper scripts: a shallow embedding

    The development follows the five Python sources:
    - [scripts/validate-spec.py]        (module [ValidateSpec])
    - [scripts/generate-snapshot.py]    (module [GenerateSnapshot])
    - [full-stack-spec-driven-dev/scripts/generate-index.py]
                                         (module [GenerateIndex])
    - [skills/scaffold/scaffold.py]      (module [Scaffold])
    - [skills/scaffolding/scaffolding.py] (module [Scaffolding])

    Text is a Rocq [string]: a sequence of 8-bit characters, read as Python
    code points below 256.  Dictionaries are [gmap string _]; the file
    system is an explicit store threaded through the scaffolders. *)

From Stdlib Require Import Ascii String DecimalString Sorted.
From stdpp Require Import gmap strings list.

(** ** Python text primitives *)

Module Py.

Definition LF : ascii := "010"%char.
Definition nl : string := String LF EmptyString.

(** [str.isspace] on one code point below 256; the class [\s] of [re]
    for [str] patterns is the same set. *)
Definition is_space (c : ascii) : bool :=
  match c with
  | "009" | "010" | "011" | "012" | "013"
  | "028" | "029" | "030" | "031" | " " | "133" | "160" => true
  | _ => false
  end%char.

Fixpoint starts_with (p s : string) : bool :=
  match p, s with
  | EmptyString, _ => true
  | String a p', String b s' => if decide (a = b) then starts_with p' s' else false
  | String _ _, EmptyString => false
  end.

Fixpoint drop (n : nat) (s : string) : string :=
  match n, s with
  | S k, String _ s' => drop k s'
  | _, _ => s
  end.

(** [p in s] *)
Fixpoint contains (p s : string) : bool :=
  starts_with p s ||
  match s with
  | EmptyString => false
  | String _ s' => contains p s'
  end.

(** [s.split(c)] for a one-character separator: never the empty list. *)
Fixpoint split_on (c : ascii) (s : string) : list string :=
  match s with
  | EmptyString => [EmptyString]
  | String a s' =>
      if decide (a = c) then EmptyString :: split_on c s'
      else match split_on c s' with
           | h :: t => String a h :: t
           | [] => [String a EmptyString]
           end
  end.

(** [c in s] together with [s.split(c, 1)]: the text before and after
    the first [c], or [None] when [c] does not occur. *)
Fixpoint split_once (c : ascii) (s : string) : option (string * string) :=
  match s with
  | EmptyString => None
  | String a s' =>
      if decide (a = c) then Some (EmptyString, s')
      else match split_once c s' with
           | Some (l, r) => Some (String a l, r)
           | None => None
           end
  end.

Fixpoint lstrip (s : string) : string :=
  match s with
  | String a s' => if is_space a then lstrip s' else s
  | EmptyString => EmptyString
  end.

Fixpoint rstrip (s : string) : string :=
  match s with
  | String a s' =>
      match rstrip s' with
      | EmptyString => if is_space a then EmptyString else String a EmptyString
      | r => String a r
      end
  | EmptyString => EmptyString
  end.

(** [s.strip()] *)
Definition strip (s : string) : string := rstrip (lstrip s).

(** [s.replace(old, new)] for a non-empty [old]: occurrences are
    replaced left to right and do not overlap; [skip] counts the
    characters of an occurrence still to be passed over. *)
Fixpoint replace_from (old new : string) (skip : nat) (s : string) : string :=
  match s with
  | EmptyString => EmptyString
  | String a s' =>
      match skip with
      | S k => replace_from old new k s'
      | O =>
          if starts_with old s
          then new +:+ replace_from old new (String.length old - 1) s'
          else String a (replace_from old new 0 s')
      end
  end.

Definition replace (old new s : string) : string := replace_from old new 0 s.

(** [str(n)] for a natural number *)
Definition str_of_nat (n : nat) : string := NilZero.string_of_uint (Nat.to_uint n).

(** [sep.join(l)] *)
Fixpoint join (sep : string) (l : list string) : string :=
  match l with
  | [] => EmptyString
  | [x] => x
  | x :: rest => x +:+ sep +:+ join sep rest
  end.

(** *** The fragment of [re] the scripts use

    Each combinator is a backtracking matcher in continuation-passing
    style: it takes the matcher [k] of the rest of the pattern and the
    remaining input, and tries its alternatives in the order of Python's
    engine. *)

(** a literal *)
Definition re_lit {A} (p : string) (k : string → option A) (s : string) : option A :=
  if starts_with p s then k (drop (String.length p) s) else None.

(** [\s*\n], greedy: the longest run of white space first *)
Fixpoint re_ws_nl {A} (k : string → option A) (s : string) : option A :=
  match s with
  | EmptyString => None
  | String a s' =>
      if is_space a then
        match re_ws_nl k s' with
        | Some r => Some r
        | None => if decide (a = LF) then k s' else None
        end
      else None
  end.

(** [(.*?)] under [re.DOTALL], lazy: the shortest group first; the
    group is returned with the result of the continuation. *)
Fixpoint re_lazy {A} (k : string → option A) (s : string) : option (string * A) :=
  match k s with
  | Some r => Some (EmptyString, r)
  | None =>
      match s with
      | EmptyString => None
      | String a s' =>
          match re_lazy k s' with
          | Some (g, r) => Some (String a g, r)
          | None => None
          end
      end
  end.

Definition accept (s : string) : option string := Some s.

(** [re.match(r'^---\s*\n(.*?)\n---', content, re.DOTALL)]: the
    captured group of the match, if any.  All three frontmatter parsers
    use this pattern. *)
Definition frontmatter_match (content : string) : option string :=
  fst <$> re_lit "---" (re_ws_nl (re_lazy (re_lit (String LF "---") accept))) content.

End Py.

(** ** The header-block loop shared by the three parsers

    [[
    frontmatter = {}
    for line in match.group(1).split('\n'):
        if ':' in line:
            key, value = line.split(':', 1)
            frontmatter[key.strip()] = value.strip()
    ]] *)

Definition header_step (fm : gmap string string) (line : string) : gmap string string :=
  match Py.split_once ":" line with
  | Some (key, value) => <[Py.strip key := Py.strip value]> fm
  | None => fm
  end.

Definition header_lines (block : string) : list string := Py.split_on Py.LF block.

Definition parse_header (block : string) : gmap string string :=
  foldl header_step ∅ (header_lines block).

(** A directory of text files, as the three spec scripts see it: a file is
    known by its path (relative to the directory that is walked) and its
    text.  [Path.exists()] and [Path.read_text()] on a single path are a
    lookup in [gmap string string]. *)

Record md_file := MdFile { file_path : string; file_text : string }.

(** [Path.name]: the last component of a path. *)
Definition path_name (p : string) : string :=
  List.last (Py.split_on "/" p) EmptyString.

(** Index of the last ["."] of [s] counted from position [i], the result
    of [s.rfind('.')] when [i] is 0. *)
Fixpoint rfind_dot (i : nat) (s : string) : option nat :=
  match s with
  | EmptyString => None
  | String a s' =>
      match rfind_dot (S i) s' with
      | Some j => Some j
      | None => if decide (a = "."%char) then Some i else None
      end
  end.

Fixpoint take (n : nat) (s : string) : string :=
  match n, s with
  | S k, String a s' => String a (take k s')
  | _, _ => EmptyString
  end.

(** [Path.stem]: the name without its last suffix; a leading or a final
    dot does not start a suffix. *)
Definition path_stem (p : string) : string :=
  let name := path_name p in
  match rfind_dot 0 name with
  | Some i =>
      if decide (0 < i ∧ i < String.length name - 1) then take i name else name
  | None => name
  end.

(** The output files that no script reads back:
    [p.name not in ('INDEX.md', 'SNAPSHOT.md', 'glossary.md')]. *)
Definition reserved_names : list string := ["INDEX.md"; "SNAPSHOT.md"; "glossary.md"].

Definition is_spec_file (f : md_file) : bool :=
  bool_decide (path_name (file_path f) ∉ reserved_names).

(** ** scripts/validate-spec.py *)

Module ValidateSpec.

Definition REQUIRED_FIELDS : list string :=
  ["title"; "status"; "domain"; "issue"; "created"; "updated"].

Definition VALID_STATUSES : list string :=
  ["active"; "deprecated"; "superseded"; "archived"].

(** The placeholders of [validate_spec]. *)
Definition PLACEHOLDER_ISSUES : list string :=
  ["PROJ-XXX"; "[PROJ-XXX]"; "TODO"; EmptyString; "{{ISSUE}}"].

(** [parse_frontmatter]: [None] when the pattern does not match. *)
Definition parse_frontmatter (content : string) : option (gmap string string) :=
  match Py.frontmatter_match content with
  | None => None
  | Some block => Some (parse_header block)
  end.

Definition msg_not_found (path : string) : string := "File not found: " +:+ path.

Definition msg_no_frontmatter (path : string) : string :=
  "Missing frontmatter in " +:+ path.

Definition msg_missing (field path : string) : string :=
  "Missing required field '" +:+ field +:+ "' in " +:+ path.

(** [str(VALID_STATUSES)] *)
Definition repr_valid_statuses : string :=
  "['active', 'deprecated', 'superseded', 'archived']".

Definition msg_status (status path : string) : string :=
  "Invalid status '" +:+ status +:+ "' in " +:+ path +:+ ". Must be one of: "
    +:+ repr_valid_statuses.

Definition msg_placeholder (path : string) : string :=
  "Issue field is placeholder in " +:+ path +:+ ". Must reference actual issue.".

(** [field not in fm or not fm[field]] *)
Definition field_missing (fm : gmap string string) (field : string) : bool :=
  match fm !! field with
  | None => true
  | Some v => bool_decide (v = EmptyString)
  end.

(** One turn of [for field in REQUIRED_FIELDS]. *)
Definition check_field (path : string) (fm : gmap string string)
    (errors : list string) (field : string) : list string :=
  if field_missing fm field then errors ++ [msg_missing field path] else errors.

(** The part of [validate_spec] that runs once a header block exists. *)
Definition check_frontmatter (path : string) (fm : gmap string string) : list string :=
  let errors := foldl (check_field path fm) [] REQUIRED_FIELDS in
  let errors :=
    match fm !! "status" with
    | Some status =>
        if bool_decide (status ∉ VALID_STATUSES)
        then errors ++ [msg_status status path] else errors
    | None => errors
    end in
  let errors :=
    match fm !! "issue" with
    | Some issue =>
        if bool_decide (issue ∈ PLACEHOLDER_ISSUES)
        then errors ++ [msg_placeholder path] else errors
    | None => errors
    end in
  errors.

(** [validate_spec(path)] over the files [fs]. *)
Definition validate_spec (fs : gmap string string) (path : string) : list string :=
  match fs !! path with
  | None => [msg_not_found path]
  | Some content =>
      match parse_frontmatter content with
      | None => [msg_no_frontmatter path]
      | Some fm => check_frontmatter path fm
      end
  end.

End ValidateSpec.

(** ** More of Python's [str] and [sorted] *)

Module PyMore.

(** [str.lower] on code points below 256. *)
Definition lower_char (c : ascii) : ascii :=
  let n := nat_of_ascii c in
  if decide ((65 ≤ n ∧ n ≤ 90) ∨ (192 ≤ n ∧ n ≤ 222 ∧ n ≠ 215))
  then ascii_of_nat (n + 32) else c.

Fixpoint lower (s : string) : string :=
  match s with
  | EmptyString => EmptyString
  | String a s' => String (lower_char a) (lower s')
  end.

(** The cased code points below 256: the letters of the two alphabets,
    the two ordinal indicators and the micro sign. *)
Definition is_cased (c : ascii) : bool :=
  let n := nat_of_ascii c in
  bool_decide ((65 ≤ n ∧ n ≤ 90) ∨ (97 ≤ n ∧ n ≤ 122)
               ∨ n = 170 ∨ n = 181 ∨ n = 186
               ∨ (192 ≤ n ∧ n ≠ 215 ∧ n ≠ 247)).

(** The title case of one code point.  The sharp s becomes two letters.
    The title case of the micro sign (181) and of the y with diaeresis
    (255) lies above 255, outside the strings of this development: the
    two are left as they are. *)
Definition title_char (c : ascii) : string :=
  let n := nat_of_ascii c in
  if decide ((97 ≤ n ∧ n ≤ 122) ∨ (224 ≤ n ∧ n ≤ 254 ∧ n ≠ 247))
  then String (ascii_of_nat (n - 32)) EmptyString
  else if decide (n = 223) then "Ss"
  else String c EmptyString.

(** [str.title] on code points below 256: a cased character that
    follows a cased character is lowered, any other is put in title
    case. *)
Fixpoint title_from (previous_is_cased : bool) (s : string) : string :=
  match s with
  | EmptyString => EmptyString
  | String a s' =>
      (if previous_is_cased then String (lower_char a) EmptyString else title_char a)
      +:+ title_from (is_cased a) s'
  end.

Definition title (s : string) : string := title_from false s.

(** [sorted(l, key=key)] with string keys: a stable insertion sort; the
    comparison of [str] is the lexicographic order on code points. *)
Section Sorted.
Context {A : Type} (key : A → string).

Fixpoint insert_sorted (x : A) (l : list A) : list A :=
  match l with
  | [] => [x]
  | y :: t =>
      if String.leb (key x) (key y) then x :: y :: t
      else y :: insert_sorted x t
  end.

Definition sorted_by (l : list A) : list A := foldr insert_sorted [] l.
End Sorted.

(** [sorted(d.keys())] of a dictionary with string keys. *)
Definition sorted_keys {V} (d : gmap string V) : list string :=
  sorted_by id (elements (dom d)).

(** [d[k].append(x)] on a [defaultdict(list)]. *)
Definition append_at {V} (k : string) (x : V) (d : gmap string (list V))
    : gmap string (list V) :=
  <[k := default [] (d !! k) ++ [x]]> d.

(** [d[k]] on a [defaultdict(list)], read only. *)
Definition bucket {V} (d : gmap string (list V)) (k : string) : list V :=
  default [] (d !! k).

(** [fm.get(k, d)] *)
Definition get (fm : gmap string string) (k d : string) : string :=
  default d (fm !! k).

End PyMore.

(** ** scripts/generate-snapshot.py *)

Module GenerateSnapshot.
Import PyMore.

(** [parse_frontmatter]: the empty dictionary when the pattern does not
    match. *)
Definition parse_frontmatter (content : string) : gmap string string :=
  match Py.frontmatter_match content with
  | None => ∅
  | Some block => parse_header block
  end.

(** [re.sub(r'^---\s*\n.*?\n---\s*\n', '', content, flags=re.DOTALL)]:
    without [re.MULTILINE] the pattern can match at position 0 only, so
    at most one match is removed. *)
Definition remove_frontmatter (content : string) : string :=
  match Py.re_lit "---"
          (Py.re_ws_nl (Py.re_lazy (Py.re_lit (String Py.LF "---")
                                      (Py.re_ws_nl Py.accept)))) content with
  | Some (_, rest) => rest
  | None => content
  end.

(** The look-ahead [(?=\n##|$)]; outside [re.MULTILINE], [$] holds at
    the end of the text and before a final newline. *)
Definition at_section_end (s : string) : option unit :=
  if Py.starts_with (String Py.LF "##") s
     || bool_decide (s = EmptyString) || bool_decide (s = Py.nl)
  then Some () else None.

(** [## Overview\s*\n(.*?)(?=\n##|$)] tried at the start of [s]. *)
Definition overview_here (s : string) : option string :=
  fst <$> Py.re_lit "## Overview" (Py.re_ws_nl (Py.re_lazy at_section_end)) s.

(** [re.search]: the first position, from the left, where the pattern
    matches. *)
Fixpoint re_search {A} (m : string → option A) (s : string) : option A :=
  match m s with
  | Some r => Some r
  | None =>
      match s with
      | EmptyString => None
      | String _ s' => re_search m s'
      end
  end.

Definition extract_overview (content : string) : string :=
  let content := remove_frontmatter content in
  match re_search overview_here content with
  | Some group => Py.strip group
  | None => EmptyString
  end.

Record spec := Spec {
  spec_title : string;
  spec_path : string;
  spec_domain : string;
  spec_issue : string;
  spec_overview : string;
  spec_content : string;
}.

Definition spec_of (f : md_file) : spec :=
  let content := file_text f in
  let fm := parse_frontmatter content in
  {| spec_title := get fm "title" (path_stem (file_path f));
     spec_path := file_path f;
     spec_domain := get fm "domain" "Unknown";
     spec_issue := get fm "issue" EmptyString;
     spec_overview := extract_overview content;
     spec_content := content |}.

(** [fm.get('status') == 'active'] *)
Definition is_active (fm : gmap string string) : bool :=
  bool_decide (fm !! "status" = Some "active").

(** One turn of [for spec_path in specs_dir.rglob('*.md')]. *)
Definition collect_step (specs : list spec) (f : md_file) : list spec :=
  if negb (is_spec_file f) then specs
  else if is_active (parse_frontmatter (file_text f)) then specs ++ [spec_of f]
  else specs.

Definition collect (files : list md_file) : list spec := foldl collect_step [] files.

Definition group_by_domain (specs : list spec) : gmap string (list spec) :=
  foldl (λ by_domain s, append_at (spec_domain s) s by_domain) ∅ specs.

Definition toc_line (domain : string) : string :=
  "- [" +:+ domain +:+ "](#" +:+ Py.replace " " "-" (lower domain) +:+ ")".

Definition spec_lines (s : spec) : list string :=
  ["#### " +:+ spec_title s;
   "**Spec:** [" +:+ spec_path s +:+ "](" +:+ spec_path s +:+ ")"]
  ++ (if bool_decide (spec_issue s ≠ EmptyString)
      then ["**Issue:** [" +:+ spec_issue s +:+ "](#)"] else [])
  ++ [EmptyString]
  ++ (if bool_decide (spec_overview s ≠ EmptyString)
      then [spec_overview s; EmptyString] else [])
  ++ ["---"; EmptyString].

Definition domain_lines (by_domain : gmap string (list spec)) (domain : string)
    : list string :=
  ["### " +:+ domain; EmptyString]
  ++ concat (spec_lines <$> sorted_by spec_title (bucket by_domain domain)).

(** [generate_snapshot(specs_dir)]; [files] are the paths that
    [rglob('*.md')] yields with their text, [today] is the formatted
    current date. *)
Definition generate_snapshot (files : list md_file) (today : string) : string :=
  let specs := collect files in
  let by_domain := group_by_domain specs in
  let lines :=
    ["# Product Snapshot"; EmptyString; "Generated: " +:+ today; EmptyString;
     "This document represents the current active state of the product by compiling all active specifications.";
     EmptyString] in
  let lines :=
    if bool_decide (by_domain ≠ ∅)
    then lines ++ ["## Table of Contents"; EmptyString]
               ++ (toc_line <$> sorted_keys by_domain) ++ [EmptyString]
    else lines in
  let lines := lines ++ ["## By Domain"; EmptyString] in
  let lines := lines ++ concat (domain_lines by_domain <$> sorted_keys by_domain) in
  let lines :=
    if bool_decide (by_domain = ∅)
    then lines ++ ["*No active specs yet*"; EmptyString] else lines in
  Py.join Py.nl lines.

End GenerateSnapshot.

(** ** full-stack-spec-driven-dev/scripts/generate-index.py *)

Module GenerateIndex.
Import PyMore.

Definition parse_frontmatter (content : string) : gmap string string :=
  match Py.frontmatter_match content with
  | None => ∅
  | Some block => parse_header block
  end.

Record entry := Entry {
  entry_title : string;
  entry_type : string;
  entry_path : string;
  entry_domain : string;
  entry_issue : string;
  entry_created : string;
}.

(** [status = fm.get('status', 'active')] *)
Definition status_of (f : md_file) : string :=
  get (parse_frontmatter (file_text f)) "status" "active".

Definition entry_of (f : md_file) : entry :=
  let fm := parse_frontmatter (file_text f) in
  {| entry_title := get fm "title" (path_stem (file_path f));
     entry_type := get fm "type" "feature";
     entry_path := file_path f;
     entry_domain := get fm "domain" "Unknown";
     entry_issue := get fm "issue" EmptyString;
     entry_created := get fm "created" EmptyString |}.

(** [specs = [p for p in specs_dir.rglob('*.md') if p.name not in (...)]] *)
Definition spec_files (files : list md_file) : list md_file :=
  filter (λ f, is_spec_file f = true) files.

(** The loop that fills [by_status]. *)
Definition categorize (specs : list md_file) : gmap string (list entry) :=
  foldl (λ by_status f, append_at (status_of f) (entry_of f) by_status) ∅ specs.

Definition row (e : entry) : string :=
  let issue_link :=
    if bool_decide (entry_issue e ≠ EmptyString)
    then "[" +:+ entry_issue e +:+ "](#)" else EmptyString in
  "| " +:+ entry_title e +:+ " | " +:+ entry_type e +:+ " | ["
    +:+ entry_path e +:+ "](" +:+ entry_path e +:+ ") | " +:+ entry_domain e
    +:+ " | " +:+ issue_link +:+ " | " +:+ entry_created e +:+ " |".

Definition rows (l : list entry) : list string := row <$> sorted_by entry_created l.

Definition no_active_row : string := "| *No active changes yet* | | | | | |".
Definition none_line : string := "*None*".

Definition active_section (l : list entry) : list string :=
  ["## Active Changes"; EmptyString;
   "| Change | Type | Spec | Domain | Issue | Since |";
   "|--------|------|------|--------|-------|-------|"]
  ++ (match l with [] => [no_active_row] | _ => rows l end)
  ++ [EmptyString].

Definition deprecated_section (l : list entry) : list string :=
  ["## Deprecated"; EmptyString]
  ++ (match l with
      | [] => [none_line]
      | _ => ["| Change | Type | Spec | Domain | Issue | Deprecated |";
              "|--------|------|------|--------|-------|------------|"] ++ rows l
      end)
  ++ [EmptyString].

Definition archived_section (l : list entry) : list string :=
  ["## Archived"; EmptyString]
  ++ (match l with
      | [] => [none_line]
      | _ => ["| Change | Type | Spec | Domain | Issue | Archived |";
              "|--------|------|------|--------|-------|----------|"] ++ rows l
      end).

Definition total_line (total active deprecated archived : nat) : string :=
  "Total: " +:+ Py.str_of_nat total +:+ " specs (Active: " +:+ Py.str_of_nat active
    +:+ ", Deprecated: " +:+ Py.str_of_nat deprecated
    +:+ ", Archived: " +:+ Py.str_of_nat archived +:+ ")".

(** The list [lines] at the end of [generate_index]. *)
Definition index_lines (files : list md_file) (today : string) : list string :=
  let specs := spec_files files in
  let by_status := categorize specs in
  let total := length specs in
  let active := length (bucket by_status "active") in
  let deprecated := length (bucket by_status "deprecated") in
  let archived := length (bucket by_status "archived") in
  ["# Spec Index"; EmptyString; "Last updated: " +:+ today; EmptyString;
   total_line total active deprecated archived; EmptyString]
  ++ active_section (bucket by_status "active")
  ++ deprecated_section (bucket by_status "deprecated")
  ++ archived_section (bucket by_status "archived").

(** [generate_index(specs_dir)]: ['\n'.join(lines) + '\n']. *)
Definition generate_index (files : list md_file) (today : string) : string :=
  Py.join Py.nl (index_lines files today) +:+ Py.nl.

End GenerateIndex.

(** ** The file system of the scaffolders

    A run of a scaffolder writes below its target directory and reads
    below its template root.  The target tree is a store of directories
    and files keyed by their path relative to the target (the empty path
    is the target itself).  [pathlib] keeps a [..] component of a path as
    it is and leaves it to the operating system to resolve it on access;
    the store is keyed by the path as written and does not resolve
    anything, so it stands for the file system on the paths that are
    [plain] only.  Exceptions
    leave the store as it is at the point of failure: nothing is rolled
    back.  Console progress lines ([print] to standard output) are not
    part of the model; the error stream of [main] is. *)

Module FS.

Inductive exn :=
| FileExistsError (p : string)
| NotADirectoryError (p : string)
| IsADirectoryError (p : string)
| FileNotFoundError (p : string)
| KeyError (k : string).

Record world := World { w_dirs : gset string; w_files : gmap string string }.

Definition empty_world : world := World ∅ ∅.

(** Components of a relative path as [pathlib] keeps them: empty and
    ["."] components vanish. *)
Definition components (p : string) : list string :=
  filter (λ c, c ≠ EmptyString ∧ c ≠ ".") (Py.split_on "/" p).

Definition of_components (cs : list string) : string := Py.join "/" cs.

Definition norm (p : string) : string := of_components (components p).

(** [a / b] for a relative [b] *)
Definition pjoin (a b : string) : string := norm (a +:+ "/" +:+ b).

Fixpoint inits {A} (l : list A) : list (list A) :=
  match l with
  | [] => [[]]
  | x :: t => [] :: ((x ::.) <$> inits t)
  end.

(** The path and every ancestor of it, the target first. *)
Definition lineage (p : string) : list string :=
  of_components <$> inits (components p).

(** [Path.parent] *)
Definition parent (p : string) : string := of_components (removelast (components p)).

(** The paths on which the store stands for the file system: no
    component is [..], and there is no NUL character, which every system
    call refuses. *)
Definition plain (p : string) : Prop :=
  (".." ∉ components p) ∧ Py.contains (String Ascii.zero EmptyString) p = false.

Global Instance plain_dec (p : string) : Decision (plain p) :=
  ltac:(unfold plain; apply _).

(** [Path.suffix] *)
Definition suffix (p : string) : string :=
  let name := path_name p in
  match rfind_dot 0 name with
  | Some i =>
      if decide (0 < i ∧ i < String.length name - 1) then Py.drop i name
      else EmptyString
  | None => EmptyString
  end.

(** State of a scaffolding run: the target tree and the two lists that
    [scaffold_project] appends to. *)
Record state := State {
  st_world : world;
  created_files : list string;
  created_dirs : list string;
}.

Definition M (A : Type) : Type := state → (exn + A) * state.

Definition ret {A} (a : A) : M A := λ st, (inr a, st).
Definition raise {A} (e : exn) : M A := λ st, (inl e, st).
Definition bind {A B} (m : M A) (f : A → M B) : M B :=
  λ st, match m st with
        | (inr a, st') => f a st'
        | (inl e, st') => (inl e, st')
        end.

Definition on_world (f : world → world) : M unit :=
  λ st, (inr (), State (f (st_world st)) (created_files st) (created_dirs st)).
Definition get_world : M world := λ st, (inr (st_world st), st).
Definition get_state : M state := λ st, (inr st, st).

Definition note_file (p : string) : M unit :=
  λ st, (inr (), State (st_world st) (created_files st ++ [p]) (created_dirs st)).
Definition note_dir (p : string) : M unit :=
  λ st, (inr (), State (st_world st) (created_files st) (created_dirs st ++ [p])).

End FS.

(** The run monad uses stdpp's [x ← m; k] and [m ;; k]. *)
Global Instance fs_ret : MRet FS.M := @FS.ret.
Global Instance fs_bind : MBind FS.M := λ A B f m, FS.bind m f.

Module FSOps.
Import FS.

Fixpoint for_each {A} (l : list A) (body : A → M unit) : M unit :=
  match l with
  | [] => mret ()
  | x :: rest => body x ;; for_each rest body
  end.

Definition when (b : bool) (m : M unit) : M unit := if b then m else mret ().

(** [Path.mkdir(parents=True, exist_ok=True)]: a regular file on the
    way is an error, existing directories are not. *)
Definition mkdir_p (p : string) : M unit :=
  w ← get_world;
  match List.find (λ q, bool_decide (is_Some (w_files w !! q))) (lineage p) with
  | Some q =>
      if decide (q = norm p) then raise (FileExistsError (norm p))
      else raise (NotADirectoryError (norm p))
  | None =>
      on_world (λ w, World (list_to_set (lineage p) ∪ w_dirs w) (w_files w))
  end.

(** [Path.write_text(content)]: the parent must be a directory and the
    path itself must not be one. *)
Definition write_text (p content : string) : M unit :=
  w ← get_world;
  if decide (norm p ∈ w_dirs w) then raise (IsADirectoryError (norm p))
  else if decide (parent p ∈ w_dirs w)
  then on_world (λ w, World (w_dirs w) (<[norm p := content]> (w_files w)))
  else if decide (is_Some (w_files w !! parent p))
  then raise (NotADirectoryError (norm p))
  else raise (FileNotFoundError (norm p)).

(** [shutil.copy2(src, dest)] for the text of a regular file [src]: a
    destination that is a directory receives the file under the base
    name of the source. *)
Definition copy2 (src_name content dest : string) : M unit :=
  w ← get_world;
  if decide (norm dest ∈ w_dirs w) then write_text (pjoin dest src_name) content
  else write_text dest content.

End FSOps.

(** The tree below a template root: paths relative to the root, in the
    order in which [rglob] walks them; a directory carries no text. *)
Definition template_tree := list (string * option string).

Module Tpl.

Definition lookup (t : template_tree) (p : string) : option (option string) :=
  snd <$> List.find (λ e, bool_decide (e.1 = p)) t.

(** [Path.exists()]: listed, or an ancestor of something listed. *)
Definition exists_ (t : template_tree) (p : string) : bool :=
  existsb (λ e, bool_decide (e.1 = p) || Py.starts_with (p +:+ "/") e.1) t.

(** [root.rglob("*")] restricted by [is_file()], each file with its
    path relative to [root] and its text. *)
Definition walk_files (t : template_tree) (root : string) : list (string * string) :=
  omap (λ e, match e.2 with
             | Some text =>
                 if Py.starts_with (root +:+ "/") e.1
                 then Some (Py.drop (String.length root + 1) e.1, text)
                 else None
             | None => None
             end) t.

End Tpl.

(** ** What the two scaffolders have word for word in common *)

Module ScaffoldCommon.
Import FS FSOps.

(** The three values that templates refer to. *)
Record variables := Variables {
  project_name : string;
  project_description : string;
  primary_domain : string;
}.

(** [substitute_variables] *)
Definition substitute_variables (content : string) (v : variables) : string :=
  let content := Py.replace "{{PROJECT_NAME}}" (project_name v) content in
  let content := Py.replace "{{PROJECT_DESCRIPTION}}" (project_description v) content in
  let content := Py.replace "{{PRIMARY_DOMAIN}}" (primary_domain v) content in
  content.

Definition substitutable_suffixes : list string :=
  [".md"; ".json"; ".yaml"; ".yml"; ".ts"; ".tsx"; ".html"; ".css"; ".js"].

(** [copy_template_file(src, dest, config)] with [substitute] left at
    its default; [src] is the source as found in the template tree, a
    directory when it has no text. *)
Definition copy_template_file (src_path : string) (src : option string)
    (dest : string) (v : variables) : M unit :=
  mkdir_p (parent dest) ;;
  match src with
  | None => raise (IsADirectoryError src_path)
  | Some text =>
      if decide (suffix src_path ∈ substitutable_suffixes)
      then write_text dest (substitute_variables text v)
      else copy2 (path_name src_path) text dest
  end.

(** [create_directory(path, config)] *)
Definition create_directory (path : string) : M unit := mkdir_p path.

(** [create_directory(target / d, config); created_dirs.append(d)]
    for each [d] of a list. *)
Definition create_all (ds : list string) : M unit :=
  for_each ds (λ d, create_directory d ;; note_dir d).

(** [if src.exists(): copy_template_file(src, dest, config);
    created_files.append(record)] *)
Definition copy_if_exists (t : template_tree) (src dest record : string)
    (v : variables) : M unit :=
  when (Tpl.exists_ t src)
    (copy_template_file src (default None (Tpl.lookup t src)) dest v ;;
     note_file record).

(** The walk over one component's template subtree. *)
Definition copy_tree (t : template_tree) (root dest_root : string) (v : variables)
    : M unit :=
  for_each (Tpl.walk_files t root)
    (λ '(rel_path, text),
       copy_template_file (pjoin root rel_path) (Some text)
                          (pjoin dest_root rel_path) v ;;
       note_file (dest_root +:+ "/" +:+ norm rel_path)).

Definition gitignore_text : string :=
  Py.join Py.nl ["node_modules/"; ".env"; ".DS_Store"; "dist/"; "*.log"; EmptyString].

(** Step 1 of [scaffold_project]: the root [.gitignore]. *)
Definition create_root_files : M unit :=
  write_text ".gitignore" gitignore_text ;;
  note_file ".gitignore".

Definition specs_dirs : list string :=
  ["specs"; "specs/domain"; "specs/domain/definitions"; "specs/domain/use-cases";
   "specs/architecture"; "specs/changes"; "specs/external"].

Definition config_dirs : list string :=
  ["components/config"; "components/config/schemas"].

Definition testing_dirs : list string :=
  ["components/testing/tests/integration"; "components/testing/tests/component";
   "components/testing/tests/e2e"; "components/testing/testsuites"].

Definition webapp_subdirs (dir_name : string) : list string :=
  (λ d, "components/" +:+ dir_name +:+ d) <$>
  ["/src/pages"; "/src/components"; "/src/viewmodels"; "/src/models";
   "/src/services"; "/src/stores"; "/src/types"; "/src/utils"].

Definition project_files : list string := ["README.md"; "CLAUDE.md"; "package.json"].

Definition spec_files : list (string * string) :=
  [("INDEX.md", "specs/INDEX.md"); ("SNAPSHOT.md", "specs/SNAPSHOT.md");
   ("glossary.md", "specs/domain/glossary.md")].

Definition config_files : list string :=
  ["config.yaml"; "config-local.yaml"; "config-testing.yaml";
   "config-production.yaml"; "schemas/schema.json"; "schemas/ops-schema.json";
   "schemas/app-schema.json"].

Definition contract_files : list string := ["package.json"; "openapi.yaml"].

Definition arch_header (v : variables) : string :=
  Py.join Py.nl
    ["# Architecture Overview"; EmptyString;
     "This document describes the architecture of " +:+ project_name v +:+ ".";
     EmptyString; "## Components"; EmptyString; EmptyString].

Definition desc_contract : string :=
  "- **Contract** (`components/contract/`): OpenAPI specifications and type generation".
Definition desc_config : string :=
  "- **Config** (`components/config/`): YAML-based configuration management".
Definition desc_helm : string :=
  "- **Helm** (`components/helm/`): Kubernetes deployment charts".
Definition desc_testing : string :=
  "- **Testing** (`components/testing/`): Testkube test definitions".

(** [ci_content]: the same literal in both scripts (the one of
    scaffold.py is an f-string without fields). *)
Definition ci_content : string :=
  Py.join Py.nl
    ["name: CI"; EmptyString;
     "on:"; "  push:"; "    branches: [main]"; "  pull_request:";
     "    branches: [main]"; EmptyString;
     "jobs:"; "  build:"; "    runs-on: ubuntu-latest"; EmptyString;
     "    steps:"; "      - uses: actions/checkout@v4"; EmptyString;
     "      - name: Setup Node.js"; "        uses: actions/setup-node@v4";
     "        with:"; "          node-version: '20'"; "          cache: 'npm'";
     EmptyString;
     "      - name: Install dependencies"; "        run: npm install --workspaces";
     EmptyString;
     "      - name: Type check"; "        run: npm run typecheck"; EmptyString;
     "      - name: Lint"; "        run: npm run lint"; EmptyString;
     "      - name: Test"; "        run: npm run test"; EmptyString;
     "      - name: Build"; "        run: npm run build"; EmptyString].

(** The dictionary that [scaffold_project] returns. *)
Record result := Result {
  success : bool;
  target_dir_of : string;
  n_created_dirs : nat;
  n_created_files : nat;
  files_of : list string;
}.

(** The end of [scaffold_project]: the summary that is returned. *)
Definition summary (target_dir : string) : M result :=
  st ← get_state;
  mret {| success := true;
          target_dir_of := target_dir;
          n_created_dirs := length (created_dirs st);
          n_created_files := length (created_files st);
          files_of := created_files st |}.

(** A line on [sys.stderr]: literal text, or [f"Error: {e}"] for an
    exception, whose wording belongs to the operating system. *)
Inductive stderr_line :=
| Line (text : string)
| ErrorOf (e : exn).

(** What a run of [main] leaves behind. *)
Record outcome := Outcome {
  exit_code : nat;
  stderr : list stderr_line;
  final_world : world;
}.

(** The configuration as [json.load] returns it, typed as [Config]
    with every key optional. *)
Record raw_config := RawConfig {
  raw_project_name : option string;
  raw_project_description : option string;
  raw_primary_domain : option string;
  raw_target_dir : option string;
  raw_components : option (list string);
  raw_template_dir : option string;
  raw_skills_dir : option string;
}.

(** [field in config] *)
Definition has_key (c : raw_config) (field : string) : bool :=
  if decide (field = "project_name") then bool_decide (is_Some (raw_project_name c))
  else if decide (field = "project_description")
       then bool_decide (is_Some (raw_project_description c))
  else if decide (field = "primary_domain")
       then bool_decide (is_Some (raw_primary_domain c))
  else if decide (field = "target_dir") then bool_decide (is_Some (raw_target_dir c))
  else if decide (field = "components") then bool_decide (is_Some (raw_components c))
  else if decide (field = "template_dir") then bool_decide (is_Some (raw_template_dir c))
  else if decide (field = "skills_dir") then bool_decide (is_Some (raw_skills_dir c))
  else false.

(** The loop [for field in required: if field not in config: ...
    return 1] stops at the first key that is absent. *)
Definition first_missing (required : list string) (c : raw_config) : option string :=
  List.find (λ field, negb (has_key c field)) required.

Definition msg_missing_field (field : string) : stderr_line :=
  Line ("Error: Missing required config field: " +:+ field).

Definition msg_config_not_found (config_path : string) : stderr_line :=
  Line ("Error: Config file not found: " +:+ config_path).

(** [config.setdefault(...)] for the two optional keys. *)
Definition variables_of (name : string) (c : raw_config) : variables :=
  {| project_name := name;
     project_description :=
       default ("A " +:+ name +:+ " project") (raw_project_description c);
     primary_domain := default "General" (raw_primary_domain c) |}.

(** The [try] of [main] around [scaffold_project]. *)
Definition run_guarded (run : M result) (w : world) : outcome :=
  match run (State w [] []) with
  | (inr r, st) => Outcome (if success r then 0 else 1) [] (st_world st)
  | (inl e, st) => Outcome 1 [ErrorOf e] (st_world st)
  end.

End ScaffoldCommon.

(** ** skills/scaffold/scaffold.py *)

Module Scaffold.
Import FS FSOps ScaffoldCommon PyMore.

Record config := Config {
  vars : variables;
  target_dir : string;
  components : list string;
  template_dir : string;
}.

Definition server_dirs : list string :=
  ["components/server/src/app"; "components/server/src/config";
   "components/server/src/controller/http_handlers";
   "components/server/src/model/definitions";
   "components/server/src/model/use-cases"; "components/server/src/dal";
   "components/server/src/telemetry"].

Definition component_descriptions : gmap string string :=
  list_to_map
    [("contract", desc_contract);
     ("server", "- **Server** (`components/server/`): Node.js/TypeScript backend with 5-layer architecture");
     ("webapp", "- **Webapp** (`components/webapp/`): React/TypeScript frontend with MVVM pattern");
     ("config", desc_config); ("helm", desc_helm); ("testing", desc_testing)].

(** [arch_content]: one line per described member of [sorted(components)]. *)
Definition arch_content (cfg : config) (comps : gset string) : string :=
  foldl (λ acc comp,
           match component_descriptions !! comp with
           | Some d => acc +:+ d +:+ Py.nl
           | None => acc
           end)
        (arch_header (vars cfg)) (sorted_by id (elements comps)).

(** Step 2 of [scaffold_project]: the directory structure;
    [comps] is [set(config["components"])]. *)
Definition create_directory_structure (comps : gset string) : M unit :=
  let has c := bool_decide (c ∈ comps) in
  create_all specs_dirs ;;
  create_all config_dirs ;;
  when (has "contract") (create_all ["components/contract"]) ;;
  when (has "server") (create_all server_dirs) ;;
  when (has "webapp") (create_all (webapp_subdirs "webapp")) ;;
  when (has "helm") (create_all ["components/helm"]) ;;
  when (has "testing") (create_all testing_dirs) ;;
  when (has "cicd") (create_all [".github/workflows"]).

(** Step 3 of [scaffold_project]: the template files, the generated
    architecture overview and the CI workflow. *)
Definition copy_template_files (cfg : config) (comps : gset string)
    (t : template_tree) : M unit :=
  let v := vars cfg in
  let has c := bool_decide (c ∈ comps) in
  when (Tpl.exists_ t "project")
    (for_each project_files
       (λ f, copy_if_exists t (pjoin "project" f) f f v)) ;;
  when (Tpl.exists_ t "specs")
    (for_each spec_files
       (λ '(src_name, dest_path),
          copy_if_exists t (pjoin "specs" src_name) dest_path dest_path v)) ;;
  write_text "specs/architecture/overview.md" (arch_content cfg comps) ;;
  note_file "specs/architecture/overview.md" ;;
  when (Tpl.exists_ t "components/config")
    (for_each config_files
       (λ cf, copy_if_exists t (pjoin "components/config" cf)
                (pjoin "components/config" cf) ("components/config/" +:+ cf) v)) ;;
  when (has "contract")
    (when (Tpl.exists_ t "components/contract")
       (for_each contract_files
          (λ cf, copy_if_exists t (pjoin "components/contract" cf)
                   (pjoin "components/contract" cf)
                   ("components/contract/" +:+ cf) v)) ;;
     write_text "components/contract/.gitignore"
       (Py.join Py.nl ["node_modules/"; "generated/"; EmptyString]) ;;
     note_file "components/contract/.gitignore") ;;
  when (has "server")
    (when (Tpl.exists_ t "components/server")
       (copy_tree t "components/server" "components/server" v)) ;;
  when (has "webapp")
    (when (Tpl.exists_ t "components/webapp")
       (copy_tree t "components/webapp" "components/webapp" v)) ;;
  when (has "cicd")
    (write_text ".github/workflows/ci.yaml" ci_content ;;
     note_file ".github/workflows/ci.yaml").

(** [scaffold_project(config)] over the template tree [t] found at
    [template_dir]. *)
Definition scaffold_project (cfg : config) (t : template_tree) : M result :=
  (* components = set(config["components"]) *)
  let comps : gset string := list_to_set (components cfg) in
  mkdir_p EmptyString ;;
  create_root_files ;;
  create_directory_structure comps ;;
  copy_template_files cfg comps t ;;
  summary (target_dir cfg).

Definition required : list string :=
  ["project_name"; "target_dir"; "components"; "template_dir"].

(** [config["k"]] for the required keys, once they are known to be
    there; a key that is absent raises [KeyError]. *)
Definition config_of (c : raw_config) : exn + config :=
  match raw_project_name c, raw_target_dir c, raw_components c, raw_template_dir c with
  | Some name, Some target, Some comps, Some tdir =>
      inr (Config (variables_of name c) target comps tdir)
  | None, _, _, _ => inl (KeyError "project_name")
  | _, None, _, _ => inl (KeyError "target_dir")
  | _, _, None, _ => inl (KeyError "components")
  | _, _, _, None => inl (KeyError "template_dir")
  end.

(** [main()]: [config_file] is the configuration read from the path
    given on the command line, [None] when that path does not exist;
    [disk] gives the tree below a template root.  The flag
    [--json-output] only adds to standard output. *)
Definition main (config_path : string) (config_file : option raw_config)
    (disk : string → template_tree) (w : world) : outcome :=
  match config_file with
  | None => Outcome 1 [msg_config_not_found config_path] w
  | Some c =>
      match first_missing required c with
      | Some field => Outcome 1 [msg_missing_field field] w
      | None =>
          match config_of c with
          | inl e => Outcome 1 [ErrorOf e] w
          | inr cfg => run_guarded (scaffold_project cfg (disk (template_dir cfg))) w
          end
      end
  end.

End Scaffold.

(** ** skills/scaffolding/scaffolding.py *)

Module Scaffolding.
Import FS FSOps ScaffoldCommon PyMore.

Record config := Config {
  vars : variables;
  target_dir : string;
  components : list string;
  skills_dir : string;
}.

Record parsed_component := ParsedComponent {
  component_type : string;
  name : option string;
  dir_name : string;
}.

(** [parse_component] *)
Definition parse_component (component : string) : parsed_component :=
  match Py.split_once ":" component with
  | Some (ctype, cname) =>
      {| component_type := ctype; name := Some cname;
         dir_name := ctype +:+ "-" +:+ cname |}
  | None =>
      {| component_type := component; name := None; dir_name := component |}
  end.

(** [get_components_by_type] *)
Definition get_components_by_type (comps : list string) (ctype : string)
    : list parsed_component :=
  parse_component <$>
    filter (λ c, component_type (parse_component c) = ctype) comps.

(** [has_component_type] *)
Definition has_component_type (comps : list string) (ctype : string) : bool :=
  existsb (λ c, bool_decide (component_type (parse_component c) = ctype)) comps.

Definition server_subdirs (dir_name : string) : list string :=
  (λ d, "components/" +:+ dir_name +:+ d) <$>
  ["/src/operator"; "/src/config"; "/src/controller/http_handlers";
   "/src/model/definitions"; "/src/model/use-cases"; "/src/dal"].

(** [server["name"] or "Server"] *)
Definition display_name (pc : parsed_component) (fallback : string) : string :=
  match name pc with
  | Some n => if decide (n = EmptyString) then fallback else n
  | None => fallback
  end.

Definition static_descriptions : list (string * string) :=
  [("contract", desc_contract); ("config", desc_config);
   ("helm", desc_helm); ("testing", desc_testing)].

Definition arch_content (cfg : config) (component_types : gset string)
    (servers webapps : list parsed_component) : string :=
  let content := arch_header (vars cfg) in
  let content :=
    foldl (λ acc '(comp_type, d),
             if decide (comp_type ∈ component_types) then acc +:+ d +:+ Py.nl
             else acc)
          content static_descriptions in
  let content :=
    foldl (λ acc server,
             acc +:+ "- **" +:+ title (display_name server "Server")
                 +:+ "** (`components/" +:+ dir_name server
                 +:+ "/`): Node.js/TypeScript backend with CMDO architecture"
                 +:+ Py.nl)
          content servers in
  foldl (λ acc webapp,
           acc +:+ "- **" +:+ title (display_name webapp "Webapp")
               +:+ "** (`components/" +:+ dir_name webapp
               +:+ "/`): React/TypeScript frontend with MVVM pattern" +:+ Py.nl)
        content webapps.

(** The list [workspaces] that the CI step builds. *)
Definition workspaces (component_types : gset string)
    (servers webapps : list parsed_component) : list string :=
  (if decide ("contract" ∈ component_types) then ["components/contract"] else [])
  ++ ((λ s, "components/" +:+ dir_name s) <$> servers)
  ++ ((λ w, "components/" +:+ dir_name w) <$> webapps).

Definition project_templates : string := "project-scaffolding/templates".
Definition backend_templates : string := "backend-scaffolding/templates".
Definition frontend_templates : string := "frontend-scaffolding/templates".
Definition contract_templates : string := "contract-scaffolding/templates".

(** [{pc["component_type"] for pc in parsed_components}] *)
Definition component_types_of (components_raw : list string) : gset string :=
  list_to_set (component_type <$> (parse_component <$> components_raw)).

(** Step 2 of [scaffold_project]: the directory structure. *)
Definition create_directory_structure (components_raw : list string) : M unit :=
  let component_types := component_types_of components_raw in
  let has c := bool_decide (c ∈ component_types) in
  create_all specs_dirs ;;
  create_all config_dirs ;;
  when (has "contract") (create_all ["components/contract"]) ;;
  let server_components := get_components_by_type components_raw "server" in
  for_each server_components
    (λ server, create_all (server_subdirs (dir_name server))) ;;
  let webapp_components := get_components_by_type components_raw "webapp" in
  for_each webapp_components
    (λ webapp, create_all (webapp_subdirs (dir_name webapp))) ;;
  when (has "helm") (create_all ["components/helm"]) ;;
  when (has "testing") (create_all testing_dirs) ;;
  when (has "cicd") (create_all [".github/workflows"]).

(** Step 3 of [scaffold_project]: the template files, the generated
    architecture overview and the CI workflow. *)
Definition copy_template_files (cfg : config) (t : template_tree) : M unit :=
  let v := vars cfg in
  let components_raw := components cfg in
  let component_types := component_types_of components_raw in
  let has c := bool_decide (c ∈ component_types) in
  let server_components := get_components_by_type components_raw "server" in
  let webapp_components := get_components_by_type components_raw "webapp" in
  when (Tpl.exists_ t (pjoin project_templates "project"))
    (for_each project_files
       (λ f, copy_if_exists t (pjoin (pjoin project_templates "project") f) f f v)) ;;
  when (Tpl.exists_ t (pjoin project_templates "specs"))
    (for_each spec_files
       (λ '(src_name, dest_path),
          copy_if_exists t (pjoin (pjoin project_templates "specs") src_name)
            dest_path dest_path v)) ;;
  write_text "specs/architecture/overview.md"
    (arch_content cfg component_types server_components webapp_components) ;;
  note_file "specs/architecture/overview.md" ;;
  when (Tpl.exists_ t (pjoin project_templates "config"))
    (for_each config_files
       (λ cf, copy_if_exists t (pjoin (pjoin project_templates "config") cf)
                (pjoin "components/config" cf) ("components/config/" +:+ cf) v)) ;;
  when (has "contract")
    (when (Tpl.exists_ t contract_templates)
       (for_each contract_files
          (λ cf, copy_if_exists t (pjoin contract_templates cf)
                   (pjoin "components/contract" cf)
                   ("components/contract/" +:+ cf) v)) ;;
     write_text "components/contract/.gitignore"
       (Py.join Py.nl ["node_modules/"; "generated/"; EmptyString]) ;;
     note_file "components/contract/.gitignore") ;;
  when (Tpl.exists_ t backend_templates)
    (for_each server_components
       (λ server, copy_tree t backend_templates
                    ("components/" +:+ dir_name server) v)) ;;
  when (Tpl.exists_ t frontend_templates)
    (for_each webapp_components
       (λ webapp, copy_tree t frontend_templates
                    ("components/" +:+ dir_name webapp) v)) ;;
  when (has "cicd")
    ((* the list is built and then not used: [ci_content] has no field *)
     let _ := workspaces component_types server_components webapp_components in
     write_text ".github/workflows/ci.yaml" ci_content ;;
     note_file ".github/workflows/ci.yaml").

(** [scaffold_project(config)] over the tree [t] found at [skills_dir]. *)
Definition scaffold_project (cfg : config) (t : template_tree) : M result :=
  mkdir_p EmptyString ;;
  create_root_files ;;
  create_directory_structure (components cfg) ;;
  copy_template_files cfg t ;;
  summary (target_dir cfg).

Definition required : list string :=
  ["project_name"; "target_dir"; "components"; "skills_dir"].

(** [str(Path(template_dir).parent / "skills")] on a POSIX path, whose
    root is ["//"] when it starts with exactly two slashes. *)
Definition legacy_skills_dir (template_dir : string) : string :=
  (if Py.starts_with "//" template_dir && negb (Py.starts_with "///" template_dir)
   then "//"
   else if Py.starts_with "/" template_dir then "/" else EmptyString)
  +:+ of_components (removelast (FS.components template_dir) ++ ["skills"]).

(** [if "skills_dir" not in config and "template_dir" in config:
    config["skills_dir"] = ...] *)
Definition with_legacy_skills_dir (c : raw_config) : raw_config :=
  match raw_skills_dir c, raw_template_dir c with
  | None, Some template_dir =>
      {| raw_project_name := raw_project_name c;
         raw_project_description := raw_project_description c;
         raw_primary_domain := raw_primary_domain c;
         raw_target_dir := raw_target_dir c;
         raw_components := raw_components c;
         raw_template_dir := raw_template_dir c;
         raw_skills_dir := Some (legacy_skills_dir template_dir) |}
  | _, _ => c
  end.

Definition config_of (c : raw_config) : exn + config :=
  match raw_project_name c, raw_target_dir c, raw_components c, raw_skills_dir c with
  | Some name, Some target, Some comps, Some sdir =>
      inr (Config (variables_of name c) target comps sdir)
  | None, _, _, _ => inl (KeyError "project_name")
  | _, None, _, _ => inl (KeyError "target_dir")
  | _, _, None, _ => inl (KeyError "components")
  | _, _, _, None => inl (KeyError "skills_dir")
  end.

(** [main()], as in [Scaffold.main]. *)
Definition main (config_path : string) (config_file : option raw_config)
    (disk : string → template_tree) (w : world) : outcome :=
  match config_file with
  | None => Outcome 1 [msg_config_not_found config_path] w
  | Some c0 =>
      let c := with_legacy_skills_dir c0 in
      match first_missing required c with
      | Some field => Outcome 1 [msg_missing_field field] w
      | None =>
          match config_of c with
          | inl e => Outcome 1 [ErrorOf e] w
          | inr cfg => run_guarded (scaffold_project cfg (disk (skills_dir cfg))) w
          end
      end
  end.

End Scaffolding.

(** ** Documents and measures that the statements below refer to *)

Definition empty_header_doc : string := Py.join Py.nl ["---"; EmptyString; "---"].

Definition duplicate_status_doc : string :=
  Py.join Py.nl ["---"; "status: draft"; "title: T"; "status : active"; "---"; "# T"].

Module ValidateSpecParts.
Import ValidateSpec.

Definition missing_errors (path : string) (fm : gmap string string) : list string :=
  (λ f, msg_missing f path) <$>
    filter (λ f, field_missing fm f = true) REQUIRED_FIELDS.

Definition status_invalid (fm : gmap string string) : bool :=
  match fm !! "status" with
  | Some status => bool_decide (status ∉ VALID_STATUSES)
  | None => false
  end.

Definition issue_placeholder (fm : gmap string string) : bool :=
  match fm !! "issue" with
  | Some issue => bool_decide (issue ∈ PLACEHOLDER_ISSUES)
  | None => false
  end.

End ValidateSpecParts.

Definition bogus_status_doc : string :=
  Py.join Py.nl
    ["---"; "title: Login"; "status: bogus"; "domain: Auth";
     "created: 2024-01-01"; "updated: 2024-01-02"; "---"; "# Login"].

Definition capitalised_status_doc : string :=
  Py.join Py.nl ["---"; "title: A"; "status: Active"; "---"; "# A"].

Definition no_status_doc : string :=
  Py.join Py.nl ["---"; "title: B"; "---"; "# B"].

Definition active_status_doc : string :=
  Py.join Py.nl ["---"; "title: C"; "status: active"; "---"; "# C"].

(** The test that one turn of the snapshot loop applies to a file. *)
Definition snapshot_keeps (f : md_file) : Prop :=
  is_spec_file f = true
  ∧ GenerateSnapshot.is_active (GenerateSnapshot.parse_frontmatter (file_text f)) = true.

Global Instance snapshot_keeps_dec f : Decision (snapshot_keeps f).
Proof. unfold snapshot_keeps. apply _. Defined.

(** The lines of an index without any specification. *)
Definition empty_index_lines (today : string) : list string :=
  ["# Spec Index"; EmptyString; "Last updated: " +:+ today; EmptyString;
   "Total: 0 specs (Active: 0, Deprecated: 0, Archived: 0)"; EmptyString;
   "## Active Changes"; EmptyString;
   "| Change | Type | Spec | Domain | Issue | Since |";
   "|--------|------|------|--------|-------|-------|";
   "| *No active changes yet* | | | | | |"; EmptyString;
   "## Deprecated"; EmptyString; "*None*"; EmptyString;
   "## Archived"; EmptyString; "*None*"].

Definition deeper_heading_doc : string :=
  Py.join Py.nl
    ["---"; "title: C"; "status: active"; "---"; "# C"; EmptyString;
     "### Overview"; "body"].

Definition empty_overview_doc : string :=
  Py.join Py.nl
    ["---"; "title: C"; "status: active"; "---"; "# C"; EmptyString;
     "## Overview"; EmptyString; "## Requirements"; "- one"].

Definition plain_overview_doc : string :=
  Py.join Py.nl
    ["---"; "title: C"; "status: active"; "---"; "# C"; EmptyString;
     "## Overview"; EmptyString; "Users can log in."; EmptyString;
     "## Requirements"; "- one"].

Definition earlier_mention_doc : string :=
  Py.join Py.nl
    ["---"; "title: C"; "status: active"; "---"; "# C"; EmptyString;
     "## Overview of the product"; "A shop."; EmptyString;
     "## Overview"; EmptyString; "Users can log in."; EmptyString;
     "## Requirements"; "- one"].

(** Every character of [s] is white space. *)
Definition all_space (s : string) : Prop := Py.lstrip s = EmptyString.

(** A relation that every run of [m] establishes between the directories
    of the target before and after it, however the run ends. *)
Definition relates_dirs {A} (R : gset string → gset string → Prop) (m : FS.M A) : Prop :=
  ∀ st r st', m st = (r, st') →
              R (FS.w_dirs (FS.st_world st)) (FS.w_dirs (FS.st_world st')).

(** A path whose creation, with its ancestors, respects [R]. *)
Definition admits (R : gset string → gset string → Prop) (p : string) : Prop :=
  ∀ D : gset string, R D (list_to_set (FS.lineage p) ∪ D).

(** Directories only appear. *)
Definition grows : gset string → gset string → Prop := (⊆).

(** No directory below [components/server...] appears. *)
Definition no_server_tree (D : gset string) : Prop :=
  ∀ d, d ∈ D → Py.starts_with "components/server" d = false.

Definition keeps_no_server_tree (D D' : gset string) : Prop :=
  no_server_tree D → no_server_tree D'.

Definition fresh : FS.state := FS.State FS.empty_world [] [].

Definition two_servers : list string := ["server:api"; "server:billing"].

Definition demo_variables : ScaffoldCommon.variables :=
  ScaffoldCommon.Variables "demo" "A demo project" "General".

Definition ci_config : Scaffolding.config :=
  Scaffolding.Config demo_variables "/out" ["server:api"; "cicd"] "/skills".

Definition ci_config_old : Scaffold.config :=
  Scaffold.Config demo_variables "/out" ["server"; "cicd"] "/templates".

Definition no_name_config : ScaffoldCommon.raw_config :=
  {| ScaffoldCommon.raw_project_name := None;
     ScaffoldCommon.raw_project_description := None;
     ScaffoldCommon.raw_primary_domain := None;
     ScaffoldCommon.raw_target_dir := Some "/out";
     ScaffoldCommon.raw_components := Some ["server"];
     ScaffoldCommon.raw_template_dir := Some "/templates";
     ScaffoldCommon.raw_skills_dir := Some "/skills" |}.

(** [scaffold_project] of scaffolding.py up to the end of its step 2. *)
Definition directories_phase (components_raw : list string) : FS.M unit :=
  FSOps.mkdir_p EmptyString ;;
  ScaffoldCommon.create_root_files ;;
  Scaffolding.create_directory_structure components_raw.

Definition two_servers_config : Scaffolding.config :=
  Scaffolding.Config demo_variables "/out" two_servers "/skills".

Definition two_servers_config_old : Scaffold.config :=
  Scaffold.Config demo_variables "/out" two_servers "/templates".

(** The target after a run, whatever the run returned. *)
Definition target_after {A} (m : FS.M A) : FS.world := FS.st_world (m fresh).2.

Definition status_files : list md_file :=
  [MdFile "a.md" capitalised_status_doc; MdFile "b.md" no_status_doc;
   MdFile "c.md" active_status_doc].

(** * Further code of the scripts *)

(** ** scripts/validate-spec.py: [main] *)

Module ValidateSpecMain.
Import ValidateSpec.

(** A line on standard output: printed text, or the usage text of
    [parser.print_help()], whose wording belongs to [argparse]. *)
Inductive stdout_line :=
| Printed (text : string)
| HelpText.

Definition report (errors : list string) : list stdout_line :=
  Printed "Validation errors:" :: ((λ e, Printed ("  - " +:+ e)) <$> errors).

(** [str(Path(p))] on a POSIX path: repeated and trailing slashes and
    [.] components vanish, the root stays (as ["//"] when [p] starts with
    exactly two slashes), and the empty path shows as [.]. *)
Definition path_str (p : string) : string :=
  let root :=
    if Py.starts_with "//" p && negb (Py.starts_with "///" p) then "//"
    else if Py.starts_with "/" p then "/" else EmptyString in
  let shown := root +:+ FS.of_components (FS.components p) in
  if decide (shown = EmptyString) then "." else shown.

(** [main()]: [path] and [all] are the parsed arguments, [walk] the
    paths that [specs_dir.rglob('*.md')] yields, [fs] the files, keyed by
    path in the form in which [str(Path(...))] shows it.  With a path
    argument the file is looked for, and named in the errors, as
    [Path(args.path)]; the success line shows the argument as it was
    given.  The check mark of the success lines stands as its UTF-8
    bytes. *)
Definition main (path : option string) (all : bool) (walk : list string)
    (fs : gmap string string) : nat * list stdout_line :=
  if all then
    let specs := filter (λ p, path_name p ∉ reserved_names) walk in
    let all_errors := foldl (λ acc spec, acc ++ validate_spec fs spec) [] specs in
    match all_errors with
    | [] => (0, [Printed ("✓ All " +:+ Py.str_of_nat (length specs)
                             +:+ " specs are valid")])
    | _ => (1, report all_errors)
    end
  else
    match path with
    | Some p =>
        if decide (p = EmptyString) then (1, [HelpText])
        else
          match validate_spec fs (path_str p) with
          | [] => (0, [Printed ("✓ " +:+ p +:+ " is valid")])
          | errors => (1, report errors)
          end
    | None => (1, [HelpText])
    end.

End ValidateSpecMain.

Definition todo_issue_doc : string :=
  Py.join Py.nl
    ["---"; "title: Login"; "status: active"; "domain: Auth"; "issue: TODO";
     "created: 2024-01-01"; "updated: 2024-01-02"; "---"; "# Login"].

(** ** A header written line by line *)

(** The line [key: value]. *)
Definition header_line (kv : string * string) : string := kv.1 +:+ ": " +:+ kv.2.

(** The document that starts with the delimiter, has one line per pair,
    the delimiter again at the start of the next line, and then [rest]. *)
Definition document_with_header (kvs : list (string * string)) (rest : string) : string :=
  "---" +:+ Py.nl +:+ Py.join Py.nl (header_line <$> kvs) +:+ String Py.LF "---" +:+ rest.

(** A key and a value that a header line holds as they are: both
    trimmed and on one line, the key not empty, without colon, and not
    itself starting with the delimiter. *)
Definition plain_pair (kv : string * string) : Prop :=
  Py.strip kv.1 = kv.1 ∧ kv.1 ≠ EmptyString
  ∧ Py.contains ":" kv.1 = false ∧ Py.contains Py.nl kv.1 = false
  ∧ Py.starts_with "---" kv.1 = false
  ∧ Py.strip kv.2 = kv.2 ∧ Py.contains Py.nl kv.2 = false.

(** The closing delimiter with the newline before it. *)
Definition closing : string := String Py.LF "---".

(** The dictionary filled pair by pair, as [frontmatter[key] = value]. *)
Definition dict_of (kvs : list (string * string)) : gmap string string :=
  foldl (λ m kv, <[kv.1 := kv.2]> m) ∅ kvs.

(** ** Orders and counts that the statements on the index refer to *)

(** [a] is not after [b] in the order of [sorted(..., key=key)]. *)
Definition key_le {A} (key : A → string) (a b : A) : Prop := String.le (key a) (key b).

(** The statuses that have a section in the index. *)
Definition shown_statuses : list string := ["active"; "deprecated"; "archived"].

(** Number of specifications with the status [status]. *)
Definition count_status (status : string) (specs : list md_file) : nat :=
  length (filter (λ f, GenerateIndex.status_of f = status) specs).

(** The snapshot of a corpus without any active specification. *)
Definition empty_snapshot (today : string) : string :=
  Py.join Py.nl
    ["# Product Snapshot"; EmptyString; "Generated: " +:+ today; EmptyString;
     "This document represents the current active state of the product by compiling all active specifications.";
     EmptyString; "## By Domain"; EmptyString; "*No active specs yet*"; EmptyString].

(** ** skills/scaffolding/scaffolding.py: the display string of a component

    [[
    if pc["name"]:
        component_display.append(f"{pc['component_type']}:{pc['name']}")
    else:
        component_display.append(pc["component_type"])
    ]] *)

Definition component_display (pc : Scaffolding.parsed_component) : string :=
  match Scaffolding.name pc with
  | Some n =>
      if decide (n = EmptyString) then Scaffolding.component_type pc
      else Scaffolding.component_type pc +:+ ":" +:+ n
  | None => Scaffolding.component_type pc
  end.

(** ** Paths below the target *)

(** A component as [pathlib] keeps it in a relative path. *)
Definition clean (c : string) : Prop :=
  (c ≠ EmptyString ∧ c ≠ ".") ∧ Py.contains "/" c = false.


(** ** Runs that make directories *)

(** The only regular file of the target, if any, is the root
    [.gitignore]. *)
Definition only_gitignore (st : FS.state) : Prop :=
  ∀ q, is_Some (FS.w_files (FS.st_world st) !! q) → q = ".gitignore".

(** Neither the directory nor an ancestor of it is the root [.gitignore]. *)
Definition clear_of_gitignore (d : string) : Prop :=
  ∀ q, q ∈ FS.lineage d → q ≠ ".gitignore".

(** From a target whose only file is the root [.gitignore], the run [m]
    returns normally, writes no file, removes no directory and leaves
    every directory of [ds] in place. *)
Definition makes_dirs (m : FS.M unit) (ds : list string) : Prop :=
  ∀ st, only_gitignore st →
        ∃ st', m st = (inr (), st')
               ∧ only_gitignore st'
               ∧ FS.w_dirs (FS.st_world st) ⊆ FS.w_dirs (FS.st_world st')
               ∧ ∀ d, d ∈ ds → FS.norm d ∈ FS.w_dirs (FS.st_world st').


(** The directories that step 2 of scaffold.py is to make for a
    component list. *)
Definition planned_dirs_old (components_raw : list string) : list string :=
  ScaffoldCommon.specs_dirs ++ ScaffoldCommon.config_dirs
  ++ (if decide ("server" ∈ components_raw) then Scaffold.server_dirs else [])
  ++ (if decide ("webapp" ∈ components_raw) then ScaffoldCommon.webapp_subdirs "webapp"
      else []).


Definition plain_config_old : Scaffold.config :=
  Scaffold.Config demo_variables "/out" ["server"; "contract"] "/templates".

(** The run after the target directory and the root [.gitignore] are
    made, in a fresh target. *)
Definition rooted : FS.state :=
  FS.State (FS.World {[ EmptyString ]} {[ ".gitignore" := ScaffoldCommon.gitignore_text ]})
           [".gitignore"] [].

(** The mention of a component directory in the architecture overview. *)
Definition mention (dir_name : string) : string := "(`components/" +:+ dir_name +:+ "/`)".

(** * Properties *)

(** ** Text and pattern lemmas *)

Section TextLemmas.
Import Py.

Lemma sapp_nil (s : string) : EmptyString +:+ s = s.
Proof. reflexivity. Qed.

Lemma sapp_cons (a : ascii) (s t : string) : String a s +:+ t = String a (s +:+ t).
Proof. reflexivity. Qed.

Lemma sapp_empty_r (s : string) : s +:+ EmptyString = s.
Proof. induction s as [|a s IH]; [done | by rewrite sapp_cons, IH]. Qed.

Lemma sapp_assoc (a b c : string) : (a +:+ b) +:+ c = a +:+ b +:+ c.
Proof. induction a as [|x a IH]; [done | by rewrite !sapp_cons, IH]. Qed.

Lemma starts_with_app (p s : string) : starts_with p (p +:+ s) = true.
Proof.
  induction p as [|a p IH]; [done|]. rewrite sapp_cons. simpl.
  by rewrite decide_True.
Qed.

Lemma starts_with_inv (p s : string) :
  starts_with p s = true → s = p +:+ drop (String.length p) s.
Proof.
  revert s. induction p as [|a p IH]; intros [|b s]; simpl; try done.
  case_decide; [|done]. intros Hs. subst b. rewrite sapp_cons. f_equal. by apply IH.
Qed.

Lemma contains_here (p s : string) : starts_with p s = true → contains p s = true.
Proof. intros H. destruct s; simpl in *; by rewrite H. Qed.

Lemma contains_cons (p : string) (a : ascii) (s : string) :
  contains p s = true → contains p (String a s) = true.
Proof. intros H. simpl. rewrite H. apply orb_true_r. Qed.

Lemma contains_app (p pre s : string) :
  contains p s = true → contains p (pre +:+ s) = true.
Proof.
  intros H. induction pre as [|a pre IH]; [done|].
  rewrite sapp_cons. by apply contains_cons.
Qed.

Lemma contains_false_app (p pre s : string) :
  contains p (pre +:+ s) = false → contains p s = false.
Proof.
  intros H. destruct (contains p s) eqn:E; [|done].
  by rewrite (contains_app _ pre) in H.
Qed.

Lemma re_lit_Some {A} (p : string) (k : string → option A) (s : string) (r : A) :
  re_lit p k s = Some r →
  starts_with p s = true ∧ k (drop (String.length p) s) = Some r.
Proof. unfold re_lit. by destruct (starts_with p s). Qed.

(** A match of [\s*\n] consumes white space up to and including one
    newline. *)
Lemma re_ws_nl_Some {A} (k : string → option A) (s : string) (r : A) :
  re_ws_nl k s = Some r →
  ∃ ws rest, s = ws +:+ String LF rest ∧ k rest = Some r.
Proof.
  induction s as [|a s IH]; simpl; [done|].
  destruct (is_space a); [|done].
  destruct (re_ws_nl k s) as [r'|] eqn:E.
  - intros [= ->]. destruct (IH eq_refl) as (ws & rest & -> & Hk).
    by exists (String a ws), rest.
  - case_decide as Ha; [|done]. subst a. intros Hk.
    by exists EmptyString, s.
Qed.

Lemma re_lazy_Some {A} (k : string → option A) (s g : string) (r : A) :
  re_lazy k s = Some (g, r) → ∃ rest, s = g +:+ rest ∧ k rest = Some r.
Proof.
  revert g. induction s as [|a s IH]; intros g; simpl.
  - destruct (k EmptyString) eqn:E; [|done]. intros [= <- <-]. by exists EmptyString.
  - destruct (k (String a s)) eqn:E.
    + intros [= <- <-]. by exists (String a s).
    + destruct (re_lazy k s) as [[g' r']|] eqn:E'; [|done].
      intros [= <- <-]. destruct (IH g' eq_refl) as (rest & -> & Hk).
      by exists rest.
Qed.

Lemma re_lazy_here {A} (k : string → option A) (s : string) (r : A) :
  k s = Some r → re_lazy k s = Some (EmptyString, r).
Proof. intros H. destruct s; simpl; by rewrite H. Qed.

Lemma re_lazy_later {A} (k : string → option A) (a : ascii) (s : string) :
  k (String a s) = None →
  re_lazy k (String a s)
  = match re_lazy k s with Some (g, r) => Some (String a g, r) | None => None end.
Proof. intros H. simpl. by rewrite H. Qed.

(** A document with a frontmatter match starts with the delimiter and
    has a second delimiter at the start of a later line. *)
Lemma frontmatter_match_Some (content block : string) :
  frontmatter_match content = Some block →
  starts_with "---" content = true ∧ contains (String LF "---") content = true.
Proof.
  unfold frontmatter_match. intros H.
  apply fmap_Some in H as ([g r] & H & _).
  apply re_lit_Some in H as [Hp H]. split; [done|].
  apply re_ws_nl_Some in H as (ws & rest & Hd & H).
  apply re_lazy_Some in H as (rest' & -> & H).
  apply re_lit_Some in H as [Hq _].
  rewrite (starts_with_inv _ _ Hp), Hd.
  apply contains_app, contains_app, contains_cons, contains_app.
  by apply contains_here.
Qed.

Lemma frontmatter_match_None (content : string) :
  starts_with "---" content = false ∨ contains (String LF "---") content = false →
  frontmatter_match content = None.
Proof.
  intros H. destruct (frontmatter_match content) as [b|] eqn:E; [|done].
  apply frontmatter_match_Some in E as [E1 E2]. destruct H; congruence.
Qed.

End TextLemmas.

(** ** Header parsing (C6, C7) *)


(** C6, as amended.  A document without the header delimiter (it does not
    start with the delimiter, or no later line starts with it) parses to
    the empty mapping in the index builder and in the snapshot builder,
    exactly as a document with an empty header does; the validator's
    parser answers [None] instead, which differs from what it answers on
    an empty header. *)
Theorem parse_frontmatter_without_delimiter (content : string) :
  Py.starts_with "---" content = false
  ∨ Py.contains (String Py.LF "---") content = false →
  GenerateIndex.parse_frontmatter content = ∅
  ∧ GenerateSnapshot.parse_frontmatter content = ∅
  ∧ GenerateIndex.parse_frontmatter empty_header_doc = ∅
  ∧ GenerateSnapshot.parse_frontmatter empty_header_doc = ∅
  ∧ ValidateSpec.parse_frontmatter content = None
  ∧ ValidateSpec.parse_frontmatter empty_header_doc = Some ∅.
Proof.
  intros H. apply frontmatter_match_None in H.
  unfold GenerateIndex.parse_frontmatter, GenerateSnapshot.parse_frontmatter,
    ValidateSpec.parse_frontmatter.
  rewrite H. repeat split; reflexivity.
Qed.

Lemma parse_frontmatter_without_delimiter_witness :
  GenerateIndex.parse_frontmatter "# Title" = ∅
  ∧ GenerateSnapshot.parse_frontmatter "# Title" = ∅
  ∧ GenerateIndex.parse_frontmatter empty_header_doc = ∅
  ∧ GenerateSnapshot.parse_frontmatter empty_header_doc = ∅
  ∧ ValidateSpec.parse_frontmatter "# Title" = None
  ∧ ValidateSpec.parse_frontmatter empty_header_doc = Some ∅.
Proof. apply parse_frontmatter_without_delimiter. left. reflexivity. Defined.

(** C6 as stated fails for the validator: on a document without any
    delimiter its parser does not return the empty mapping, and the
    validator tells that document apart from one with an empty header. *)
Lemma validator_parser_distinguishes_no_header :
  Py.contains "---" "# Title" = false
  ∧ ValidateSpec.parse_frontmatter "# Title" ≠ Some ∅
  ∧ ValidateSpec.validate_spec {[ "a.md" := "# Title" ]} "a.md"
    ≠ ValidateSpec.validate_spec {[ "a.md" := empty_header_doc ]} "a.md".
Proof. split; [reflexivity|]. split; [discriminate|]. vm_compute. discriminate. Qed.

Lemma foldl_header_step_other (post : list string) (fm : gmap string string) (key : string) :
  (∀ line k v, line ∈ post → Py.split_once ":" line = Some (k, v) → Py.strip k ≠ key) →
  foldl header_step fm post !! key = fm !! key.
Proof.
  revert fm. induction post as [|line post IH]; intros fm Hother; [done|].
  simpl. rewrite IH.
  - unfold header_step. destruct (Py.split_once ":" line) as [[k v]|] eqn:E; [|done].
    apply lookup_insert_ne. eapply Hother; [|done]. by left.
  - intros l k v Hl. apply Hother. by right.
Qed.

Lemma parse_header_last_wins (block : string) (pre post : list string)
    (line k v : string) :
  header_lines block = pre ++ line :: post →
  Py.split_once ":" line = Some (k, v) →
  (∀ l k' v', l ∈ post → Py.split_once ":" l = Some (k', v') → Py.strip k' ≠ Py.strip k) →
  parse_header block !! Py.strip k = Some (Py.strip v).
Proof.
  intros Hlines Hline Hpost. unfold parse_header.
  rewrite Hlines, foldl_app. simpl.
  rewrite foldl_header_step_other by done.
  unfold header_step at 1. rewrite Hline. apply lookup_insert_eq.
Qed.


(** C7.  When the pattern matches and captures [block], and [line] is the
    last line of the block that has a colon and whose trimmed key is
    [key], every parser binds [key] to the trimmed value of [line],
    whatever the lines before it bind. *)
Theorem duplicate_key_last_wins (content block : string) (pre post : list string)
    (line k v : string) :
  Py.frontmatter_match content = Some block →
  header_lines block = pre ++ line :: post →
  Py.split_once ":" line = Some (k, v) →
  (∀ l k' v', l ∈ post → Py.split_once ":" l = Some (k', v') → Py.strip k' ≠ Py.strip k) →
  GenerateIndex.parse_frontmatter content !! Py.strip k = Some (Py.strip v)
  ∧ GenerateSnapshot.parse_frontmatter content !! Py.strip k = Some (Py.strip v)
  ∧ (ValidateSpec.parse_frontmatter content ≫= (.!! Py.strip k)) = Some (Py.strip v).
Proof.
  intros Hm Hlines Hline Hpost.
  unfold GenerateIndex.parse_frontmatter, GenerateSnapshot.parse_frontmatter,
    ValidateSpec.parse_frontmatter.
  rewrite Hm. simpl.
  by rewrite (parse_header_last_wins block pre post line k v).
Qed.

Lemma duplicate_key_last_wins_witness :
  GenerateIndex.parse_frontmatter duplicate_status_doc !! "status" = Some "active"
  ∧ GenerateSnapshot.parse_frontmatter duplicate_status_doc !! "status" = Some "active"
  ∧ (ValidateSpec.parse_frontmatter duplicate_status_doc ≫= (.!! "status"))
    = Some "active".
Proof.
  apply (duplicate_key_last_wins duplicate_status_doc
           (Py.join Py.nl ["status: draft"; "title: T"; "status : active"])
           ["status: draft"; "title: T"] [] "status : active" "status " " active").
  - reflexivity.
  - reflexivity.
  - reflexivity.
  - intros l k' v' Hl. by apply elem_of_nil in Hl.
Defined.

(** ** The validator (C1, C10) *)

Section Validator.
Import ValidateSpec ValidateSpecParts.

Lemma foldl_check_field (path : string) (fm : gmap string string)
    (fields : list string) (errors : list string) :
  foldl (check_field path fm) errors fields
  = errors ++ ((λ f, msg_missing f path) <$>
               filter (λ f, field_missing fm f = true) fields).
Proof.
  revert errors. induction fields as [|f fields IH]; intros errors; simpl.
  - by rewrite app_nil_r.
  - rewrite IH. unfold check_field. rewrite filter_cons.
    destruct (field_missing fm f) eqn:E.
    + rewrite decide_True by done. by rewrite <- app_assoc.
    + rewrite decide_False by done. done.
Qed.


Lemma check_frontmatter_parts (path : string) (fm : gmap string string) :
  check_frontmatter path fm
  = missing_errors path fm
    ++ (if status_invalid fm then [msg_status (default EmptyString (fm !! "status")) path]
        else [])
    ++ (if issue_placeholder fm then [msg_placeholder path] else []).
Proof.
  unfold check_frontmatter, status_invalid, issue_placeholder, missing_errors.
  rewrite foldl_check_field. simpl.
  destruct (fm !! "status") as [status|]; destruct (fm !! "issue") as [issue|];
    simpl; repeat case_bool_decide; simpl; by rewrite <- ?app_assoc, ?app_nil_r.
Qed.

Lemma field_missing_spec (fm : gmap string string) (field : string) :
  field_missing fm field = true ↔ fm !! field = None ∨ fm !! field = Some EmptyString.
Proof.
  unfold field_missing. destruct (fm !! field) as [v|].
  - rewrite bool_decide_eq_true. split; [intros ->; by right|].
    intros [Hn | Hs]; [done | by injection Hs].
  - split; [by left | done].
Qed.

Lemma field_present (fm : gmap string string) (field : string) :
  (∃ v, fm !! field = Some v ∧ v ≠ EmptyString) → field_missing fm field = false.
Proof.
  intros (v & Hv & Hne). unfold field_missing. rewrite Hv.
  by apply bool_decide_eq_false.
Qed.

Lemma validate_spec_with_header (fs : gmap string string) (path content : string)
    (fm : gmap string string) :
  fs !! path = Some content → parse_frontmatter content = Some fm →
  validate_spec fs path = check_frontmatter path fm.
Proof. intros Hf Hp. unfold validate_spec. by rewrite Hf, Hp. Qed.

(** C1.  Once the header block is there, every applicable error is in
    the list that [validate_spec] returns: one per required field that
    is absent or empty, one for a status outside the enumeration, one
    for a placeholder issue; their number is the number of conditions
    that apply.  A header with a non-empty title, domain, created and
    updated, no issue and the status [bogus] gives exactly the
    missing-issue error and the invalid-status error. *)
Theorem validate_spec_accumulates (fs : gmap string string) (path content : string)
    (fm : gmap string string) :
  fs !! path = Some content →
  parse_frontmatter content = Some fm →
  (∀ field, field ∈ REQUIRED_FIELDS →
     fm !! field = None ∨ fm !! field = Some EmptyString →
     msg_missing field path ∈ validate_spec fs path)
  ∧ (∀ status, fm !! "status" = Some status → status ∉ VALID_STATUSES →
       msg_status status path ∈ validate_spec fs path)
  ∧ (∀ issue, fm !! "issue" = Some issue → issue ∈ PLACEHOLDER_ISSUES →
       msg_placeholder path ∈ validate_spec fs path)
  ∧ length (validate_spec fs path)
    = length (filter (λ f, field_missing fm f = true) REQUIRED_FIELDS)
      + (if status_invalid fm then 1 else 0)
      + (if issue_placeholder fm then 1 else 0)
  ∧ ((∀ field, field ∈ ["title"; "domain"; "created"; "updated"] →
        ∃ v, fm !! field = Some v ∧ v ≠ EmptyString) →
     fm !! "issue" = None → fm !! "status" = Some "bogus" →
     validate_spec fs path = [msg_missing "issue" path; msg_status "bogus" path]).
Proof.
  intros Hf Hp. rewrite (validate_spec_with_header fs path content fm Hf Hp).
  rewrite check_frontmatter_parts. repeat split.
  - intros field Hin Hmiss. apply elem_of_app. left. unfold missing_errors.
    apply (list_elem_of_fmap_2 (λ f, msg_missing f path)).
    apply list_elem_of_filter. split; [|done]. by apply field_missing_spec.
  - intros status Hs Hbad. apply elem_of_app. right. apply elem_of_app. left.
    unfold status_invalid. rewrite Hs. rewrite bool_decide_true by done.
    simpl. by left.
  - intros issue Hi Hph. apply elem_of_app. right. apply elem_of_app. right.
    unfold issue_placeholder. rewrite Hi. rewrite bool_decide_true by done.
    by left.
  - unfold missing_errors. rewrite !length_app, length_fmap.
    destruct (status_invalid fm), (issue_placeholder fm); simpl; lia.
  - intros Hpresent Hissue Hstatus.
    unfold missing_errors, status_invalid, issue_placeholder, REQUIRED_FIELDS.
    rewrite Hissue, Hstatus.
    assert (Hyes : ∀ f, f ∈ ["title"; "domain"; "created"; "updated"] →
                        field_missing fm f = false).
    { intros f Hin. by apply field_present, Hpresent. }
    assert (field_missing fm "status" = false) as Hst.
    { unfold field_missing. by rewrite Hstatus. }
    assert (field_missing fm "issue" = true) as His.
    { unfold field_missing. by rewrite Hissue. }
    rewrite !filter_cons, filter_nil.
    rewrite (Hyes "title"), (Hyes "domain"), (Hyes "created"), (Hyes "updated"),
      Hst, His by set_solver.
    reflexivity.
Qed.

Lemma validate_spec_accumulates_witness :
  ValidateSpec.validate_spec {[ "a.md" := bogus_status_doc ]} "a.md"
  = [msg_missing "issue" "a.md"; msg_status "bogus" "a.md"].
Proof.
  destruct (validate_spec_accumulates {[ "a.md" := bogus_status_doc ]} "a.md"
              bogus_status_doc (parse_header
                 (Py.join Py.nl ["title: Login"; "status: bogus"; "domain: Auth";
                                 "created: 2024-01-01"; "updated: 2024-01-02"])))
    as (_ & _ & _ & _ & Htwo).
  - reflexivity.
  - reflexivity.
  - apply Htwo.
    + intros field Hin. set_unfold in Hin.
      destruct Hin as [-> | [-> | [-> | [-> | []]]]];
        (eexists; split; [vm_compute; reflexivity | discriminate]).
    + reflexivity.
    + reflexivity.
Defined.

(** C10.  A path that does not exist yields the file-not-found error
    alone, and a file without the frontmatter delimiter yields the
    missing-frontmatter error alone: no field, status or issue error is
    added in either case. *)
Theorem validate_spec_without_header (fs : gmap string string) (path : string) :
  (fs !! path = None → validate_spec fs path = [msg_not_found path])
  ∧ (∀ content, fs !! path = Some content →
       Py.starts_with "---" content = false
       ∨ Py.contains (String Py.LF "---") content = false →
       validate_spec fs path = [msg_no_frontmatter path]).
Proof.
  unfold validate_spec, parse_frontmatter. split.
  - by intros ->.
  - intros content -> Hno. by rewrite frontmatter_match_None.
Qed.

Lemma validate_spec_without_header_witness :
  validate_spec ∅ "a.md" = ["File not found: a.md"]
  ∧ validate_spec {[ "a.md" := "# Title" ]} "a.md" = ["Missing frontmatter in a.md"].
Proof.
  split.
  - apply (validate_spec_without_header ∅ "a.md"). reflexivity.
  - apply (validate_spec_without_header {[ "a.md" := "# Title" ]} "a.md" ) with "# Title".
    + reflexivity.
    + left. reflexivity.
Defined.

End Validator.

(** ** Snapshot and index: which files count as active (C4) *)

Section ActiveSpecs.
Import PyMore.

Lemma is_spec_file_spec (f : md_file) :
  is_spec_file f = true ↔ path_name (file_path f) ∉ reserved_names.
Proof. unfold is_spec_file. apply bool_decide_eq_true. Qed.

Lemma foldl_collect_step (files : list md_file) (specs : list GenerateSnapshot.spec) :
  foldl GenerateSnapshot.collect_step specs files
  = specs ++ (GenerateSnapshot.spec_of <$> filter snapshot_keeps files).
Proof.
  revert specs. induction files as [|f files IH]; intros specs; simpl.
  - by rewrite app_nil_r.
  - rewrite IH, filter_cons. unfold GenerateSnapshot.collect_step.
    destruct (decide (snapshot_keeps f)) as [[H1 H2]|Hn].
    + rewrite H1, H2. simpl. by rewrite <- app_assoc.
    + destruct (is_spec_file f) eqn:E1; simpl; [|done].
      destruct (GenerateSnapshot.is_active _) eqn:E2; [|done].
      destruct Hn. by split.
Qed.

Lemma bucket_append_at {V} (d : gmap string (list V)) (k k' : string) (x : V) :
  bucket (append_at k' x d) k
  = if decide (k' = k) then bucket d k ++ [x] else bucket d k.
Proof.
  unfold bucket, append_at. case_decide as Hk.
  - subst. by rewrite lookup_insert_eq.
  - by rewrite lookup_insert_ne.
Qed.

Lemma bucket_categorize (files : list md_file)
    (d : gmap string (list GenerateIndex.entry)) (k : string) :
  bucket (foldl (λ by_status f,
                   append_at (GenerateIndex.status_of f) (GenerateIndex.entry_of f)
                             by_status) d files) k
  = bucket d k
    ++ (GenerateIndex.entry_of <$> filter (λ f, GenerateIndex.status_of f = k) files).
Proof.
  revert d. induction files as [|f files IH]; intros d; simpl.
  - by rewrite app_nil_r.
  - rewrite IH, bucket_append_at, filter_cons.
    case_decide; simpl; [by rewrite <- app_assoc | done].
Qed.

(** C4.  The snapshot builder collects a specification for a file
    exactly when the file is not one of the reserved outputs and the
    parsed header binds [status] to the string [active]; nothing is
    filled in for a header without a status.  The index builder, on the
    contrary, files a specification without a status under [active]. *)
Theorem snapshot_keeps_only_active (files : list md_file) :
  (∀ s, s ∈ GenerateSnapshot.collect files ↔
        ∃ f, f ∈ files ∧ s = GenerateSnapshot.spec_of f
             ∧ (path_name (file_path f) ∉ reserved_names)
             ∧ (GenerateSnapshot.parse_frontmatter (file_text f) !! "status")
               = Some "active")
  ∧ (∀ f, f ∈ files → path_name (file_path f) ∉ reserved_names →
          GenerateIndex.parse_frontmatter (file_text f) !! "status" = None →
          GenerateIndex.entry_of f
          ∈ bucket (GenerateIndex.categorize (GenerateIndex.spec_files files)) "active").
Proof.
  split.
  - intros s. unfold GenerateSnapshot.collect. rewrite foldl_collect_step. simpl.
    rewrite list_elem_of_fmap. split.
    + intros (f & -> & Hf). apply list_elem_of_filter in Hf as [[H1 H2] Hf].
      exists f. repeat split; [done | by apply is_spec_file_spec |].
      by apply bool_decide_eq_true in H2.
    + intros (f & Hf & -> & Hname & Hstatus). exists f. split; [done|].
      apply list_elem_of_filter. split; [|done]. split.
      * by apply is_spec_file_spec.
      * by apply bool_decide_eq_true.
  - intros f Hf Hname Hstatus. unfold GenerateIndex.categorize.
    rewrite bucket_categorize. apply elem_of_app. right.
    apply list_elem_of_fmap_2, list_elem_of_filter. split.
    + unfold GenerateIndex.status_of, get. by rewrite Hstatus.
    + apply list_elem_of_filter. split; [|done]. by apply is_spec_file_spec.
Qed.

Lemma snapshot_keeps_only_active_witness :
  GenerateSnapshot.spec_of (MdFile "c.md" active_status_doc)
    ∈ GenerateSnapshot.collect status_files
  ∧ GenerateIndex.entry_of (MdFile "b.md" no_status_doc)
    ∈ bucket (GenerateIndex.categorize (GenerateIndex.spec_files status_files)) "active".
Proof.
  destruct (snapshot_keeps_only_active status_files) as [Hsnapshot Hindex]. split.
  - apply Hsnapshot. exists (MdFile "c.md" active_status_doc).
    split; [by do 2 right; left|]. split; [reflexivity|]. split; [|reflexivity].
    apply (bool_decide_unpack _). vm_compute. exact I.
  - apply Hindex; [by right; left | | reflexivity].
    apply (bool_decide_unpack _). vm_compute. exact I.
Defined.

(** A status spelled [Active] and an absent status both keep a file out
    of the snapshot; the index counts the file without a status as
    active. *)
Lemma snapshot_excludes_capitalised_and_missing_status :
  (GenerateSnapshot.spec_path <$> GenerateSnapshot.collect status_files) = ["c.md"]
  ∧ (GenerateIndex.entry_path
       <$> bucket (GenerateIndex.categorize (GenerateIndex.spec_files status_files))
             "active")
    = ["b.md"; "c.md"].
Proof. split; vm_compute; reflexivity. Qed.

End ActiveSpecs.

(** ** The index of an empty corpus (C5) *)

Section EmptyIndex.
Import PyMore GenerateIndex.

Lemma spec_files_all_reserved (files : list md_file) :
  (∀ f, f ∈ files → path_name (file_path f) ∈ reserved_names) →
  spec_files files = [].
Proof.
  intros Hall. unfold spec_files. induction files as [|f files IH]; [done|].
  rewrite filter_cons. rewrite decide_False.
  - apply IH. intros g Hg. apply Hall. by right.
  - intros Hspec. apply is_spec_file_spec in Hspec. apply Hspec, Hall. by left.
Qed.

(** C5.  When the walk finds no specification (no markdown file at
    all, or only the reserved output files), the index states a total
    of 0 and holds exactly three empty-state placeholders: the row of
    the active table and one line for each of the deprecated and the
    archived bucket. *)
Theorem index_of_no_specs (files : list md_file) (today : string) :
  (∀ f, f ∈ files → path_name (file_path f) ∈ reserved_names) →
  index_lines files today = empty_index_lines today
  ∧ generate_index files today = Py.join Py.nl (empty_index_lines today) +:+ Py.nl
  ∧ length (filter (λ l, l = no_active_row ∨ l = none_line) (index_lines files today))
    = 3.
Proof.
  intros Hall.
  assert (Hlines : index_lines files today = empty_index_lines today).
  { unfold index_lines. rewrite (spec_files_all_reserved files Hall).
    cbn [categorize foldl]. unfold bucket. rewrite !lookup_empty. reflexivity. }
  unfold generate_index. rewrite Hlines. by repeat split.
Qed.

Lemma index_of_no_specs_witness :
  generate_index [MdFile "INDEX.md" "# Spec Index"] "2024-05-01"
  = Py.join Py.nl (empty_index_lines "2024-05-01") +:+ Py.nl.
Proof.
  apply (index_of_no_specs [MdFile "INDEX.md" "# Spec Index"] "2024-05-01").
  intros f Hf. apply list_elem_of_singleton in Hf as ->. by left.
Defined.

End EmptyIndex.

(** ** The overview section (C8) *)

Section Overview.
Import Py GenerateSnapshot.

Lemma length_sapp (a b : string) :
  String.length (a +:+ b) = String.length a + String.length b.
Proof. induction a as [|x a IH]; [done|]. rewrite sapp_cons. simpl. by rewrite IH. Qed.

Lemma starts_with_app_long (p u y : string) :
  String.length p ≤ String.length u →
  starts_with p (u +:+ y) = starts_with p u.
Proof.
  revert u. induction p as [|a p IH]; intros [|b u] Hlen; try done.
  - simpl in Hlen. lia.
  - rewrite sapp_cons. simpl. case_decide; [|done]. apply IH. simpl in Hlen. lia.
Qed.

Lemma drop_sapp (p s : string) : drop (String.length p) (p +:+ s) = s.
Proof. induction p as [|a p IH]; [by destruct s|]. by rewrite sapp_cons. Qed.

Lemma contains_cons_false (p : string) (a : ascii) (s : string) :
  contains p (String a s) = false →
  starts_with p (String a s) = false ∧ contains p s = false.
Proof. simpl. by intros [H1 H2]%orb_false_elim. Qed.

Lemma overview_here_None (s : string) :
  starts_with "## Overview" s = false → overview_here s = None.
Proof. intros H. unfold overview_here, re_lit. by rewrite H. Qed.

Lemma re_search_None (s : string) :
  contains "## Overview" s = false → re_search overview_here s = None.
Proof.
  induction s as [|a s IH]; intros H.
  - reflexivity.
  - apply contains_cons_false in H as [H1 H2]. simpl.
    rewrite (overview_here_None _ H1). by apply IH.
Qed.

(** A match of [\s*\n] consumes white space, and nothing else, up to
    and including one newline. *)
Lemma re_ws_nl_Some_space {A} (k : string → option A) (s : string) (r : A) :
  re_ws_nl k s = Some r →
  ∃ ws rest, all_space ws ∧ s = ws +:+ String LF rest ∧ k rest = Some r.
Proof.
  induction s as [|a s IH]; simpl; [done|].
  destruct (is_space a) eqn:Ha; [|done].
  destruct (re_ws_nl k s) as [r'|] eqn:E.
  - intros [= ->]. destruct (IH eq_refl) as (ws & rest & Hws & -> & Hk).
    exists (String a ws), rest. split; [|done].
    unfold all_space. simpl. by rewrite Ha.
  - case_decide as Hlf; [|done]. subst a. intros Hk.
    by exists EmptyString, s.
Qed.

(** Where the pattern matches, the characters of the heading stand,
    followed by white space up to a newline. *)
Lemma overview_here_Some (s g : string) :
  overview_here s = Some g →
  ∃ ws r, all_space ws ∧ s = "## Overview" +:+ ws +:+ nl +:+ r.
Proof.
  unfold overview_here.
  destruct (re_lit _ _ s) as [[g' u]|] eqn:E; [|done]. intros _.
  apply re_lit_Some in E as [Hp E].
  apply re_ws_nl_Some_space in E as (ws & r & Hws & Hd & _).
  exists ws, r. split; [done|].
  rewrite (starts_with_inv _ _ Hp) at 1. by rewrite Hd.
Qed.

(** The positions before the first place where the heading stands with
    white space up to a newline after it are passed over, whatever
    stands there. *)
Lemma re_search_first (pre s : string) :
  (∀ p ws r, all_space ws →
             pre +:+ s = p +:+ "## Overview" +:+ ws +:+ nl +:+ r →
             String.length pre ≤ String.length p) →
  re_search overview_here (pre +:+ s) = re_search overview_here s.
Proof.
  induction pre as [|a pre IH]; intros Hfirst; [done|].
  rewrite sapp_cons. simpl.
  destruct (overview_here (String a (pre +:+ s))) as [g|] eqn:E.
  - apply overview_here_Some in E as (ws & r & Hws & E).
    specialize (Hfirst EmptyString ws r Hws).
    rewrite sapp_cons, sapp_nil in Hfirst. specialize (Hfirst E).
    simpl in Hfirst. lia.
  - apply IH. intros p ws r Hws E'.
    specialize (Hfirst (String a p) ws r Hws).
    rewrite !sapp_cons, E' in Hfirst. specialize (Hfirst eq_refl).
    simpl in Hfirst. lia.
Qed.

(** The lazy group with the look-ahead of the section end always finds
    a place to stop, the end of the text at the latest. *)
Lemma re_lazy_section_total (s : string) : is_Some (re_lazy at_section_end s).
Proof.
  induction s as [|a s [[g r] IH]]; [by eexists|]. simpl.
  destruct (at_section_end (String a s)); [by eexists|].
  rewrite IH. by eexists.
Qed.

(** Conversely, the pattern matches wherever the heading stands with
    white space up to a newline after it. *)
Lemma overview_here_occurrence (ws r : string) :
  all_space ws → is_Some (overview_here ("## Overview" +:+ ws +:+ nl +:+ r)).
Proof.
  intros Hws. unfold overview_here, re_lit.
  rewrite starts_with_app, drop_sapp.
  assert (is_Some (re_ws_nl (re_lazy at_section_end) (ws +:+ nl +:+ r))) as [x ->];
    [|by eexists].
  induction ws as [|a ws IH].
  - rewrite sapp_nil. change (nl +:+ r) with (String LF r). simpl.
    destruct (re_ws_nl _ r); [by eexists|]. apply re_lazy_section_total.
  - unfold all_space in Hws. simpl in Hws. rewrite sapp_cons. simpl.
    destruct (is_space a); [|done]. destruct (IH Hws) as [x ->]. by eexists.
Qed.

(** A test by evaluation that the heading does not stand, with white
    space up to a newline after it, at any of the first [n] positions. *)
Lemma no_occurrence_before (s : string) (n : nat) :
  forallb (λ i, bool_decide (overview_here (drop i s) = None)) (seq 0 n) = true →
  ∀ p ws r, all_space ws →
            s = p +:+ "## Overview" +:+ ws +:+ nl +:+ r →
            n ≤ String.length p.
Proof.
  intros Hall p ws r Hws ->.
  destruct (decide (n ≤ String.length p)) as [|Hlt]; [done|]. exfalso.
  rewrite forallb_forall in Hall.
  specialize (Hall (String.length p)). rewrite drop_sapp in Hall.
  destruct (overview_here_occurrence ws r Hws) as [g Hg].
  rewrite Hg in Hall. discriminate Hall.
  apply in_seq. lia.
Qed.

(** [remove_frontmatter] answers a suffix of its argument. *)
Lemma remove_frontmatter_suffix (content : string) :
  ∃ pre, content = pre +:+ remove_frontmatter content.
Proof.
  unfold remove_frontmatter.
  destruct (re_lit _ _ content) as [[g rest]|] eqn:E; [|by exists EmptyString].
  apply re_lit_Some in E as [Hp E].
  apply re_ws_nl_Some in E as (ws & r1 & Hd & E).
  apply re_lazy_Some in E as (r2 & -> & E).
  apply re_lit_Some in E as [Hq E].
  apply re_ws_nl_Some in E as (ws' & r3 & Hd' & E). injection E as ->.
  exists ("---" +:+ ws +:+ String LF (g +:+ String LF "---" +:+ ws' +:+ nl)).
  rewrite (starts_with_inv _ _ Hp), Hd at 1.
  rewrite (starts_with_inv _ _ Hq), Hd' at 1.
  rewrite !sapp_assoc. repeat (rewrite !sapp_cons, ?sapp_assoc). reflexivity.
Qed.

(** White space between the heading and the first character of the
    body, blank lines included, is consumed by [\s*\n]. *)
Lemma re_ws_nl_run {A} (k : string → option A) (ws : string) (c : ascii)
    (s : string) (r : A) :
  all_space ws → is_space c = false → k (String c s) = Some r →
  re_ws_nl k (ws +:+ String LF (String c s)) = Some r.
Proof.
  intros Hws Hc Hk. induction ws as [|a ws IH].
  - rewrite sapp_nil. simpl. by rewrite Hc.
  - unfold all_space in Hws. simpl in Hws. rewrite sapp_cons. simpl.
    destruct (is_space a); [|done]. by rewrite IH.
Qed.

Lemma starts_with_cons (a b : ascii) (p s : string) :
  starts_with (String a p) (String b s)
  = if decide (a = b) then starts_with p s else false.
Proof. reflexivity. Qed.

Lemma section_rest_not_hash (rest p : string) :
  rest = EmptyString ∨ starts_with (String LF "##") rest = true →
  starts_with (String "#" p) rest = false.
Proof.
  intros [-> | H]; [done|]. destruct rest as [|z rest]; [done|].
  rewrite starts_with_cons in *. unfold LF in H.
  repeat case_decide; try done. by subst.
Qed.

(** The group ends where the section ends: at the next line that
    starts with [##], at the end of the text, or before its last
    newline. *)
Lemma re_lazy_section (body rest : string) :
  contains (String LF "##") body = false →
  rest = EmptyString ∨ starts_with (String LF "##") rest = true →
  ∃ g, re_lazy at_section_end (body +:+ rest) = Some (g, ())
       ∧ (g = body ∨ (body = g +:+ nl ∧ rest = EmptyString)).
Proof.
  intros Hb Hrest. induction body as [|a body IH].
  - exists EmptyString. rewrite sapp_nil. split; [|by left].
    assert (at_section_end rest = Some ()) as Hend.
    { unfold at_section_end. destruct Hrest as [-> | ->]; done. }
    by apply re_lazy_here.
  - apply contains_cons_false in Hb as [Hb1 Hb2].
    destruct (IH Hb2) as (g & Hg & Hcase).
    rewrite sapp_cons.
    destruct (at_section_end (String a (body +:+ rest))) as [[]|] eqn:Hend.
    + exists EmptyString. split; [by apply re_lazy_here|]. right.
      unfold at_section_end in Hend.
      destruct (starts_with (String LF "##") (String a (body +:+ rest))) eqn:Hs.
      * exfalso. rewrite starts_with_cons in Hs, Hb1.
        case_decide as Ha; [subst a | done].
        destruct body as [|x [|y body]].
        -- rewrite sapp_nil in Hs. by rewrite section_rest_not_hash in Hs.
        -- rewrite sapp_cons, sapp_nil, starts_with_cons in Hs.
           case_decide; [|done]. by rewrite section_rest_not_hash in Hs.
        -- rewrite starts_with_app_long in Hs by (simpl; lia). congruence.
      * simpl in Hend. case_bool_decide as Hnl; [|done].
        injection Hnl as -> Hnil.
        destruct body; [|done]. rewrite sapp_nil in Hnil. by subst.
    + rewrite (re_lazy_later _ _ _ Hend), Hg. exists (String a g). split; [done|].
      destruct Hcase as [-> | [-> ->]]; [by left | by right].
Qed.

Lemma lstrip_app_nl (g : string) :
  lstrip (g +:+ nl) = if decide (lstrip g = EmptyString) then EmptyString
                      else lstrip g +:+ nl.
Proof.
  induction g as [|a g IH]; [done|]. rewrite sapp_cons. simpl.
  destruct (is_space a); [done|]. by rewrite decide_False.
Qed.

Lemma rstrip_app_nl (s : string) : rstrip (s +:+ nl) = rstrip s.
Proof. induction s as [|a s IH]; [done|]. rewrite sapp_cons. simpl. by rewrite IH. Qed.

Lemma strip_app_nl (g : string) : strip (g +:+ nl) = strip g.
Proof.
  unfold strip. rewrite lstrip_app_nl. case_decide as H; [by rewrite H|].
  apply rstrip_app_nl.
Qed.

Lemma re_search_here {A} (m : string → option A) (s : string) (r : A) :
  m s = Some r → re_search m s = Some r.
Proof. intros H. destruct s; simpl; by rewrite H. Qed.

(** C8, as amended.  The pattern is searched in the text that
    [remove_frontmatter] leaves, and it is found at the first place
    where the characters [## Overview] stand with white space up to a
    newline after them, at the start of a line or not (so also inside
    [### Overview]); a place before it where the same characters stand
    with other text after them on the line is passed over.  When the
    body after that white space starts with a character that is not
    white space, and not with [##], the overview is the body up to the
    next newline that [##] follows, or up to the end of the text,
    trimmed.  A document in which the characters [## Overview] stand
    nowhere has the empty overview. *)
Theorem extract_overview_section :
  (∀ content, contains "## Overview" content = false →
              extract_overview content = EmptyString)
  ∧ (∀ content pre ws c body rest,
       remove_frontmatter content
       = pre +:+ "## Overview" +:+ ws +:+ nl +:+ String c body +:+ rest →
       (∀ p ws' r, all_space ws' →
                   remove_frontmatter content
                   = p +:+ "## Overview" +:+ ws' +:+ nl +:+ r →
                   String.length pre ≤ String.length p) →
       all_space ws →
       is_space c = false →
       starts_with "##" (String c body) = false →
       contains (String LF "##") (String c body) = false →
       rest = EmptyString ∨ starts_with (String LF "##") rest = true →
       extract_overview content = strip (String c body)).
Proof.
  split.
  - intros content Hno. unfold extract_overview.
    destruct (remove_frontmatter_suffix content) as [pre Hpre].
    rewrite Hpre in Hno. apply contains_false_app in Hno.
    by rewrite re_search_None.
  - intros content pre ws c body rest Hdoc Hfirst Hws Hc _ Hbody Hrest.
    unfold extract_overview. rewrite Hdoc in Hfirst |- *.
    destruct (re_lazy_section (String c body) rest Hbody Hrest) as (g & Hg & Hcase).
    rewrite re_search_first by done.
    change ("## Overview" +:+ ws +:+ nl +:+ String c body +:+ rest)
      with ("## Overview" +:+ ws +:+ String LF (String c (body +:+ rest))).
    rewrite (re_search_here _ _ g).
    + destruct Hcase as [-> | [-> _]]; [done | by rewrite strip_app_nl].
    + unfold overview_here, re_lit. rewrite starts_with_app, drop_sapp.
      by rewrite (re_ws_nl_run _ ws c (body +:+ rest) (g, ())).
Qed.

Lemma extract_overview_section_witness :
  extract_overview "# Title" = EmptyString
  ∧ extract_overview plain_overview_doc = "Users can log in."
  ∧ extract_overview earlier_mention_doc = "Users can log in.".
Proof.
  destruct extract_overview_section as [Hnone Hsome]. split; [|split].
  - apply Hnone. reflexivity.
  - apply (Hsome plain_overview_doc (Py.join Py.nl ["# C"; EmptyString; EmptyString])
             nl "U"%char ("sers can log in." +:+ nl)
             (Py.join Py.nl [EmptyString; "## Requirements"; "- one"]));
      try reflexivity; [|by right].
    apply no_occurrence_before. vm_compute. reflexivity.
  - apply (Hsome earlier_mention_doc
             (Py.join Py.nl ["# C"; EmptyString; "## Overview of the product";
                             "A shop."; EmptyString; EmptyString])
             nl "U"%char ("sers can log in." +:+ nl)
             (Py.join Py.nl [EmptyString; "## Requirements"; "- one"]));
      try reflexivity; [|by right].
    apply no_occurrence_before. vm_compute. reflexivity.
Defined.

(** C8 as stated fails: no line of this document is the heading
    [## Overview], with or without surrounding white space, and still
    its overview is not empty. *)
Lemma overview_without_heading_line :
  Forall (λ line, strip line ≠ "## Overview") (split_on LF deeper_heading_doc)
  ∧ extract_overview deeper_heading_doc = "body".
Proof.
  split; [|vm_compute; reflexivity].
  apply (bool_decide_unpack _). vm_compute. exact I.
Qed.

(** An overview section without text, followed by another section:
    the white space after the heading takes the newline that would end
    the section, and the group runs on through the next section. *)
Lemma empty_overview_runs_on :
  extract_overview empty_overview_doc = Py.join Py.nl ["## Requirements"; "- one"].
Proof. vm_compute. reflexivity. Qed.

End Overview.

(** ** Runs of the scaffolders and the directories of the target *)

Section Runs.
Import FS FSOps ScaffoldCommon.
Context (R : gset string → gset string → Prop) `{!Reflexive R, !Transitive R}.

Lemma run_bind {A B} (m : M A) (f : A → M B) (st : state) :
  (m ≫= f) st
  = match m st with
    | (inr a, st') => f a st'
    | (inl e, st') => (inl e, st')
    end.
Proof. reflexivity. Qed.

Lemma relates_ret {A} (a : A) : relates_dirs R (mret a : M A).
Proof. intros st r st' [= <- <-]. reflexivity. Qed.

Lemma relates_raise {A} (e : exn) : relates_dirs R (raise e : M A).
Proof. intros st r st' [= <- <-]. reflexivity. Qed.

Lemma relates_bind {A B} (m : M A) (f : A → M B) :
  relates_dirs R m → (∀ a, relates_dirs R (f a)) → relates_dirs R (m ≫= f).
Proof.
  intros Hm Hf st r st'. rewrite run_bind.
  destruct (m st) as [[e|a] st1] eqn:E.
  - intros [= <- <-]. by eapply Hm.
  - intros Hrun. etrans; [by eapply Hm | by eapply Hf].
Qed.

Lemma relates_when (b : bool) (m : M unit) :
  relates_dirs R m → relates_dirs R (when b m).
Proof. destruct b; [done|]. intros _. apply relates_ret. Qed.

Lemma relates_for_each {A} (l : list A) (body : A → M unit) :
  (∀ x, x ∈ l → relates_dirs R (body x)) → relates_dirs R (for_each l body).
Proof.
  induction l as [|x l IH]; intros Hbody; simpl.
  - apply relates_ret.
  - apply relates_bind.
    + apply Hbody. by left.
    + intros _. apply IH. intros y Hy. apply Hbody. by right.
Qed.

Lemma relates_get_world : relates_dirs R get_world.
Proof. intros st r st' [= <- <-]. reflexivity. Qed.

Lemma relates_get_state : relates_dirs R get_state.
Proof. intros st r st' [= <- <-]. reflexivity. Qed.

Lemma relates_note_file (p : string) : relates_dirs R (note_file p).
Proof. intros st r st' [= <- <-]. reflexivity. Qed.

Lemma relates_note_dir (p : string) : relates_dirs R (note_dir p).
Proof. intros st r st' [= <- <-]. reflexivity. Qed.

Lemma relates_mkdir_p (p : string) : admits R p → relates_dirs R (mkdir_p p).
Proof.
  intros Hp. unfold mkdir_p. apply relates_bind; [apply relates_get_world|].
  intros w. destruct (List.find _ _) as [q|].
  - case_decide; apply relates_raise.
  - intros st r st' [= <- <-]. simpl. apply Hp.
Qed.

Lemma relates_write_text (p content : string) : relates_dirs R (write_text p content).
Proof.
  unfold write_text. apply relates_bind; [apply relates_get_world|].
  intros w. repeat case_decide; try apply relates_raise.
  intros st r st' [= <- <-]. reflexivity.
Qed.

Lemma relates_copy2 (src_name content dest : string) :
  relates_dirs R (copy2 src_name content dest).
Proof.
  unfold copy2. apply relates_bind; [apply relates_get_world|].
  intros w. case_decide; apply relates_write_text.
Qed.

Lemma relates_copy_template_file (src_path : string) (src : option string)
    (dest : string) (v : variables) :
  admits R (parent dest) →
  relates_dirs R (copy_template_file src_path src dest v).
Proof.
  intros Hp. unfold copy_template_file. apply relates_bind.
  - by apply relates_mkdir_p.
  - intros _. destruct src; [|apply relates_raise].
    case_decide; [apply relates_write_text | apply relates_copy2].
Qed.

Lemma relates_create_all (ds : list string) :
  (∀ d, d ∈ ds → admits R d) → relates_dirs R (create_all ds).
Proof.
  intros Hds. apply relates_for_each. intros d Hd. apply relates_bind.
  - apply relates_mkdir_p. by apply Hds.
  - intros _. apply relates_note_dir.
Qed.

Lemma relates_copy_if_exists (t : template_tree) (src dest record : string)
    (v : variables) :
  admits R (parent dest) → relates_dirs R (copy_if_exists t src dest record v).
Proof.
  intros Hp. apply relates_when, relates_bind.
  - by apply relates_copy_template_file.
  - intros _. apply relates_note_file.
Qed.

Lemma relates_copy_tree (t : template_tree) (root dest_root : string) (v : variables) :
  (∀ rel, admits R (parent (pjoin dest_root rel))) →
  relates_dirs R (copy_tree t root dest_root v).
Proof.
  intros Hp. apply relates_for_each. intros [rel text] _. apply relates_bind.
  - by apply relates_copy_template_file.
  - intros _. apply relates_note_file.
Qed.

End Runs.

Global Instance grows_refl : Reflexive grows.
Proof. intros D. reflexivity. Qed.

Global Instance grows_trans : Transitive grows.
Proof. intros D1 D2 D3. unfold grows. set_solver. Qed.

Global Instance keeps_no_server_tree_refl : Reflexive keeps_no_server_tree.
Proof. by intros D H. Qed.

Global Instance keeps_no_server_tree_trans : Transitive keeps_no_server_tree.
Proof. intros D1 D2 D3 H12 H23 H. by apply H23, H12. Qed.

Lemma admits_grows (p : string) : admits grows p.
Proof. intros D. unfold grows. set_solver. Qed.

Lemma admits_no_server (p : string) :
  forallb (λ q, negb (Py.starts_with "components/server" q)) (FS.lineage p) = true →
  admits keeps_no_server_tree p.
Proof.
  intros Hall D HD d Hd. apply elem_of_union in Hd as [Hd | Hd]; [|by apply HD].
  apply elem_of_list_to_set, list_elem_of_In in Hd.
  rewrite forallb_forall in Hall. apply Hall in Hd. by apply negb_true_iff.
Qed.

Ltac split_members H :=
  repeat (apply elem_of_cons in H as [-> | H]); try (by apply elem_of_nil in H).

(** Breaks a run into its steps; [side] settles the paths that are
    created on the way. *)
Ltac order_goal :=
  lazymatch goal with
  | |- Reflexive _ => apply _
  | |- Transitive _ => apply _
  | |- _ => idtac
  end.

Ltac relates_steps side :=
  repeat first
    [ simple apply relates_ret; order_goal
    | simple apply relates_get_state; order_goal
    | simple apply relates_note_file; order_goal
    | simple apply relates_note_dir; order_goal
    | simple apply relates_write_text; order_goal
    | simple apply relates_bind; order_goal; [|intros ?]
    | simple apply relates_when; order_goal
    | simple apply relates_copy_if_exists; order_goal; side
    | simple apply relates_copy_tree; order_goal; intros ?; side
    | simple apply relates_mkdir_p; order_goal; side
    | simple apply relates_create_all; order_goal;
      let d := fresh "d" in let Hd := fresh "Hd" in
      intros d Hd; try split_members Hd; side
    | simple apply relates_for_each; order_goal;
      let x := fresh "x" in let Hx := fresh "Hx" in
      intros x Hx; try split_members Hx;
      try match goal with y : (_ * _)%type |- _ => destruct y end ].

Section TwoServers.
Import FS FSOps ScaffoldCommon.

Lemma directories_phase_split (cfg : Scaffolding.config) (t : template_tree)
    (st : state) :
  Scaffolding.scaffold_project cfg t st
  = (directories_phase (Scaffolding.components cfg)
     ≫= λ _, Scaffolding.copy_template_files cfg t ;;
             summary (Scaffolding.target_dir cfg)) st.
Proof.
  unfold Scaffolding.scaffold_project, directories_phase.
  unfold mbind, fs_bind, bind.
  destruct (mkdir_p EmptyString st) as [[e|[]] st1]; [done|].
  destruct (create_root_files st1) as [[e|[]] st2]; [done|].
  by destruct (Scaffolding.create_directory_structure _ st2) as [[e|[]] st3].
Qed.

Lemma template_phase_grows (cfg : Scaffolding.config) (t : template_tree) :
  relates_dirs grows
    (Scaffolding.copy_template_files cfg t ;; summary (Scaffolding.target_dir cfg)).
Proof.
  unfold Scaffolding.copy_template_files, summary.
  relates_steps ltac:(apply admits_grows).
Qed.

Lemma two_servers_directories :
  (directories_phase two_servers fresh).1 = inr ()
  ∧ Forall (λ d, d ∈ w_dirs (st_world (directories_phase two_servers fresh).2))
      (Scaffolding.server_subdirs "server-api"
       ++ Scaffolding.server_subdirs "server-billing").
Proof.
  split; [vm_compute; reflexivity|].
  apply (bool_decide_unpack _). vm_compute. exact I.
Qed.

Lemma when_false (m : M unit) : when false m = mret ().
Proof. reflexivity. Qed.

Lemma old_scaffold_no_server_tree (cfg : Scaffold.config) (t : template_tree) :
  Scaffold.components cfg = two_servers →
  relates_dirs keeps_no_server_tree (Scaffold.scaffold_project cfg t).
Proof.
  intros Hc.
  unfold Scaffold.scaffold_project, create_root_files, summary,
    Scaffold.create_directory_structure, Scaffold.copy_template_files.
  rewrite Hc.
  repeat match goal with
         | |- context [bool_decide (?c ∈ ?S)] =>
             replace (bool_decide (c ∈ S)) with false by (vm_compute; reflexivity)
         end.
  rewrite !when_false.
  relates_steps ltac:(apply admits_no_server; vm_compute; reflexivity).
Qed.

(** C2, as amended.  With the component list [server:api],
    [server:billing], scaffolding.py creates, in a fresh target and
    whatever the templates hold, every directory of the fixed server
    set below [components/server-api] and below
    [components/server-billing], and neither tree lies within the
    other.  scaffold.py knows no named instances: with the same list it
    creates no directory whose path starts with [components/server]. *)
Theorem two_named_servers :
  (∀ (cfg : Scaffolding.config) (t : template_tree),
     Scaffolding.components cfg = two_servers →
     ∀ d, d ∈ Scaffolding.server_subdirs "server-api"
              ++ Scaffolding.server_subdirs "server-billing" →
          d ∈ w_dirs (target_after (Scaffolding.scaffold_project cfg t)))
  ∧ Scaffolding.server_subdirs "server-api"
    = ["components/server-api/src/operator"; "components/server-api/src/config";
       "components/server-api/src/controller/http_handlers";
       "components/server-api/src/model/definitions";
       "components/server-api/src/model/use-cases"; "components/server-api/src/dal"]
  ∧ Forall (λ d, Py.starts_with "components/server-billing" d = false)
      (Scaffolding.server_subdirs "server-api")
  ∧ Forall (λ d, Py.starts_with "components/server-api" d = false)
      (Scaffolding.server_subdirs "server-billing")
  ∧ (∀ (cfg : Scaffold.config) (t : template_tree),
       Scaffold.components cfg = two_servers →
       ∀ d, d ∈ w_dirs (target_after (Scaffold.scaffold_project cfg t)) →
            Py.starts_with "components/server" d = false).
Proof.
  split; [|split; [reflexivity|split; [|split]]].
  - intros cfg t Hc d Hd. unfold target_after.
    rewrite directories_phase_split, Hc, run_bind.
    destruct two_servers_directories as [Hok Hdirs].
    destruct (directories_phase two_servers fresh) as [r st2] eqn:E.
    simpl in Hok, Hdirs. subst r.
    rewrite Forall_forall in Hdirs. specialize (Hdirs d Hd).
    destruct ((Scaffolding.copy_template_files cfg t ;; summary _) st2)
      as [r' st'] eqn:E'.
    apply template_phase_grows in E'. simpl. by apply E'.
  - apply (bool_decide_unpack _). vm_compute. exact I.
  - apply (bool_decide_unpack _). vm_compute. exact I.
  - intros cfg t Hc d. unfold target_after.
    destruct (Scaffold.scaffold_project cfg t fresh) as [r st'] eqn:E.
    apply (old_scaffold_no_server_tree cfg t Hc) in E. simpl.
    apply E. intros q Hq. simpl in Hq. by apply not_elem_of_empty in Hq.
Qed.

Lemma two_named_servers_witness :
  "components/server-api/src/dal"
    ∈ w_dirs (target_after (Scaffolding.scaffold_project two_servers_config []))
  ∧ "components/server-billing/src/operator"
    ∈ w_dirs (target_after (Scaffolding.scaffold_project two_servers_config []))
  ∧ Py.starts_with "components/server" "components/config" = false.
Proof.
  destruct two_named_servers as (Hnew & _ & _ & _ & Hold).
  split; [|split].
  - apply Hnew; [reflexivity|]. apply (bool_decide_unpack _). vm_compute. exact I.
  - apply Hnew; [reflexivity|]. apply (bool_decide_unpack _). vm_compute. exact I.
  - apply (Hold two_servers_config_old []); [reflexivity|].
    apply (bool_decide_unpack _). vm_compute. exact I.
Defined.

(** C2 as stated fails for scaffold.py: the run succeeds and leaves
    neither [components/server-api] nor [components/server-billing]. *)
Lemma old_scaffold_ignores_named_servers :
  (∃ r, (Scaffold.scaffold_project two_servers_config_old [] fresh).1 = inr r
        ∧ success r = true)
  ∧ ("components/server-api"
     ∉ w_dirs (target_after (Scaffold.scaffold_project two_servers_config_old [])))
  ∧ ("components/server-billing"
     ∉ w_dirs (target_after (Scaffold.scaffold_project two_servers_config_old []))).
Proof.
  split; [|split].
  - eexists. split; [vm_compute; reflexivity | reflexivity].
  - apply (bool_decide_unpack _). vm_compute. exact I.
  - apply (bool_decide_unpack _). vm_compute. exact I.
Qed.

(** C3, evaluated.  For a configuration with a named server and the CI
    component, scaffolding.py computes the workspace
    [components/server-api] and then writes a workflow in which no
    component directory stands; scaffold.py writes the same text. *)
Theorem ci_workflow_names_no_directory :
  Scaffolding.workspaces
    (Scaffolding.component_types_of (Scaffolding.components ci_config))
    (Scaffolding.get_components_by_type (Scaffolding.components ci_config) "server")
    (Scaffolding.get_components_by_type (Scaffolding.components ci_config) "webapp")
  = ["components/server-api"]
  ∧ (w_files (target_after (Scaffolding.scaffold_project ci_config []))
       !! ".github/workflows/ci.yaml") = Some ci_content
  ∧ (w_files (target_after (Scaffold.scaffold_project ci_config_old []))
       !! ".github/workflows/ci.yaml") = Some ci_content
  ∧ Py.contains "components" ci_content = false.
Proof. repeat split; vm_compute; reflexivity. Qed.

End TwoServers.

(** ** Missing configuration keys (C9) *)

Section MissingKeys.
Import FS ScaffoldCommon.

Lemma first_missing_Some (required : list string) (c : raw_config) :
  (∃ field, field ∈ required ∧ has_key c field = false) →
  ∃ reported, first_missing required c = Some reported
              ∧ reported ∈ required ∧ has_key c reported = false.
Proof.
  intros (field & Hin & Hmiss). unfold first_missing.
  destruct (List.find _ required) as [reported|] eqn:E.
  - apply find_some in E as [Hr Hk]. exists reported.
    split; [done|]. split; [by apply list_elem_of_In|]. by apply negb_true_iff.
  - apply list_elem_of_In in Hin. eapply find_none in E; [|done].
    rewrite Hmiss in E. done.
Qed.

Lemma has_key_with_legacy (c : raw_config) (field : string) :
  has_key (Scaffolding.with_legacy_skills_dir c) field = false →
  has_key c field = false.
Proof.
  unfold Scaffolding.with_legacy_skills_dir.
  destruct (raw_skills_dir c) eqn:Es; [done|].
  destruct (raw_template_dir c) eqn:Et; [|done].
  unfold has_key. simpl. rewrite Es.
  repeat case_decide; try done.
Qed.

Lemma has_key_with_legacy_other (c : raw_config) (field : string) :
  field ≠ "skills_dir" →
  has_key (Scaffolding.with_legacy_skills_dir c) field = has_key c field.
Proof.
  intros Hne. unfold Scaffolding.with_legacy_skills_dir.
  destruct (raw_skills_dir c) eqn:Es; [done|].
  destruct (raw_template_dir c) eqn:Et; [|done].
  unfold has_key. simpl. rewrite ?Es, ?Et. repeat case_decide; done.
Qed.

Lemma has_key_skills_dir_legacy (c : raw_config) :
  has_key c "skills_dir" = false → has_key c "template_dir" = false →
  has_key (Scaffolding.with_legacy_skills_dir c) "skills_dir" = false.
Proof.
  destruct c as [? ? ? ? ? [t|] [s|]]; vm_compute; congruence.
Qed.

(** C9.  When a required key is absent from the configuration, [main]
    of either scaffolder returns 1, writes to the error stream the one
    line that names an absent required key, and leaves the target as it
    found it.  For scaffolding.py the templates root counts as absent
    when neither [skills_dir] nor the legacy [template_dir] is given. *)
Theorem missing_key_is_fatal (config_path : string) (c : raw_config)
    (disk : string → template_tree) (w : world) :
  ((∃ field, field ∈ Scaffold.required ∧ has_key c field = false) →
   ∃ reported, reported ∈ Scaffold.required ∧ has_key c reported = false
     ∧ Scaffold.main config_path (Some c) disk w
       = {| exit_code := 1;
            stderr := [Line ("Error: Missing required config field: " +:+ reported)];
            final_world := w |})
  ∧ (((∃ field, field ∈ ["project_name"; "target_dir"; "components"]
                ∧ has_key c field = false)
      ∨ (has_key c "skills_dir" = false ∧ has_key c "template_dir" = false)) →
     ∃ reported, reported ∈ Scaffolding.required ∧ has_key c reported = false
       ∧ Scaffolding.main config_path (Some c) disk w
         = {| exit_code := 1;
              stderr := [Line ("Error: Missing required config field: " +:+ reported)];
              final_world := w |}).
Proof.
  split.
  - intros Hmiss. apply first_missing_Some in Hmiss as (reported & Hf & Hin & Hk).
    exists reported. repeat split; [done..|].
    unfold Scaffold.main. by rewrite Hf.
  - intros Hmiss.
    assert (∃ field, field ∈ Scaffolding.required
              ∧ has_key (Scaffolding.with_legacy_skills_dir c) field = false)
      as Hmiss'.
    { destruct Hmiss as [(field & Hin & Hk) | [Hs Ht]].
      - exists field. split.
        + unfold Scaffolding.required. set_unfold in Hin. set_unfold. tauto.
        + rewrite has_key_with_legacy_other; [done|].
          set_unfold in Hin. destruct Hin as [-> | [-> | [-> | []]]]; done.
      - exists "skills_dir". split; [set_solver|].
        by apply has_key_skills_dir_legacy. }
    apply first_missing_Some in Hmiss' as (reported & Hf & Hin & Hk).
    exists reported. repeat split; [done | by apply has_key_with_legacy |].
    unfold Scaffolding.main. by rewrite Hf.
Qed.

Lemma missing_key_is_fatal_witness :
  (exit_code (Scaffold.main "config.json" (Some no_name_config) (λ _, []) empty_world)
   = 1
   ∧ final_world
       (Scaffold.main "config.json" (Some no_name_config) (λ _, []) empty_world)
     = empty_world)
  ∧ (exit_code
       (Scaffolding.main "config.json" (Some no_name_config) (λ _, []) empty_world)
     = 1
     ∧ final_world
         (Scaffolding.main "config.json" (Some no_name_config) (λ _, []) empty_world)
       = empty_world).
Proof.
  destruct (missing_key_is_fatal "config.json" no_name_config (λ _, []) empty_world)
    as [Hold Hnew].
  split.
  - destruct Hold as (reported & _ & _ & Hrun).
    + exists "project_name". split; [by left | reflexivity].
    + rewrite Hrun. split; reflexivity.
  - destruct Hnew as (reported & _ & _ & Hrun).
    + left. exists "project_name". split; [by left | reflexivity].
    + rewrite Hrun. split; reflexivity.
Defined.

(** The legacy key alone is enough for scaffolding.py: the run goes
    on to scaffold. *)
Lemma legacy_template_dir_accepted :
  exit_code
    (Scaffolding.main "config.json"
       (Some {| raw_project_name := Some "demo";
                raw_project_description := None;
                raw_primary_domain := None;
                raw_target_dir := Some "/out";
                raw_components := Some ["server"];
                raw_template_dir := Some "/plugin/templates";
                raw_skills_dir := None |})
       (λ _, []) empty_world)
  = 0.
Proof. vm_compute. reflexivity. Qed.

End MissingKeys.

(** * Further properties *)

(** ** The validator: valid files and the scan of a directory *)

Section ValidatorMore.
Import ValidateSpec ValidateSpecParts ValidateSpecMain.

Lemma filter_none {A} (P : A → Prop) `{∀ x, Decision (P x)} (l : list A) :
  (∀ x, x ∈ l → ¬ P x) → filter P l = [].
Proof.
  induction l as [|x l IH]; intros Hall; [done|].
  rewrite filter_cons, decide_False by (apply Hall; by left).
  apply IH. intros y Hy. apply Hall. by right.
Qed.

Lemma missing_errors_nil (path : string) (fm : gmap string string) :
  missing_errors path fm = [] ↔
  ∀ field, field ∈ REQUIRED_FIELDS → ∃ v, fm !! field = Some v ∧ v ≠ EmptyString.
Proof.
  unfold missing_errors. split.
  - intros Hnil field Hin. apply fmap_nil_inv in Hnil.
    destruct (field_missing fm field) eqn:E.
    + by destruct (filter_nil_not_elem_of _ _ field Hnil E).
    + unfold field_missing in E. destruct (fm !! field) as [v|]; [|done].
      exists v. split; [done|]. by apply bool_decide_eq_false in E.
  - intros Hall. rewrite filter_none; [done|]. intros field Hin Hmiss.
    by rewrite (field_present fm field (Hall field Hin)) in Hmiss.
Qed.

(** X1.  [validate_spec] returns no error exactly for a file that
    exists, has a header block in which the six required fields are
    bound to non-empty values, whose status is one of the four valid
    ones and whose issue is none of the placeholders. *)
Theorem validate_spec_valid_iff (fs : gmap string string) (path : string) :
  validate_spec fs path = [] ↔
  ∃ content fm,
    fs !! path = Some content
    ∧ parse_frontmatter content = Some fm
    ∧ (∀ field, field ∈ REQUIRED_FIELDS → ∃ v, fm !! field = Some v ∧ v ≠ EmptyString)
    ∧ (∀ status, fm !! "status" = Some status → status ∈ VALID_STATUSES)
    ∧ (∀ issue, fm !! "issue" = Some issue → issue ∉ PLACEHOLDER_ISSUES).
Proof.
  unfold validate_spec. split.
  - destruct (fs !! path) as [content|] eqn:Ef; [|done].
    destruct (parse_frontmatter content) as [fm|] eqn:Ep; [|done].
    rewrite check_frontmatter_parts. intros Hnil.
    apply app_eq_nil in Hnil as [Hmiss Hrest].
    apply app_eq_nil in Hrest as [Hstatus Hissue].
    exists content, fm. split; [done|]. split; [done|].
    split; [by eapply missing_errors_nil|]. split.
    + intros status Hs. unfold status_invalid in Hstatus. rewrite Hs in Hstatus.
      destruct (decide (status ∈ VALID_STATUSES)) as [|Hbad]; [done|].
      by rewrite bool_decide_true in Hstatus.
    + intros issue Hi. unfold issue_placeholder in Hissue. rewrite Hi in Hissue.
      by case_bool_decide.
  - intros (content & fm & -> & -> & Hfields & Hstatus & Hissue).
    rewrite check_frontmatter_parts.
    rewrite (proj2 (missing_errors_nil path fm) Hfields).
    unfold status_invalid, issue_placeholder.
    destruct (fm !! "status") as [status|] eqn:Es;
      destruct (fm !! "issue") as [issue|] eqn:Ei; simpl;
      repeat case_bool_decide; try done;
      solve [ exfalso; eauto | exfalso; by eapply Hissue ].
Qed.

(** X2.  A header that is complete and valid except that its issue is
    one of the placeholders gives the placeholder error and no other. *)
Theorem placeholder_issue_only (fs : gmap string string) (path content : string)
    (fm : gmap string string) (issue : string) :
  fs !! path = Some content →
  parse_frontmatter content = Some fm →
  (∀ field, field ∈ REQUIRED_FIELDS → ∃ v, fm !! field = Some v ∧ v ≠ EmptyString) →
  (∀ status, fm !! "status" = Some status → status ∈ VALID_STATUSES) →
  fm !! "issue" = Some issue →
  issue ∈ PLACEHOLDER_ISSUES →
  validate_spec fs path = [msg_placeholder path].
Proof.
  intros Hf Hp Hfields Hstatus Hissue Hph.
  rewrite (validate_spec_with_header fs path content fm Hf Hp).
  rewrite check_frontmatter_parts, (proj2 (missing_errors_nil path fm) Hfields).
  unfold status_invalid, issue_placeholder. rewrite Hissue.
  rewrite (bool_decide_true (issue ∈ PLACEHOLDER_ISSUES)) by done.
  destruct (fm !! "status") as [status|] eqn:Es; [|done].
  by rewrite bool_decide_false by (intros Hbad; by apply Hbad, Hstatus).
Qed.

Lemma placeholder_issue_only_witness :
  validate_spec {[ "a.md" := todo_issue_doc ]} "a.md"
  = ["Issue field is placeholder in a.md. Must reference actual issue."].
Proof.
  apply (placeholder_issue_only {[ "a.md" := todo_issue_doc ]} "a.md" todo_issue_doc
           (parse_header
              (Py.join Py.nl ["title: Login"; "status: active"; "domain: Auth";
                              "issue: TODO"; "created: 2024-01-01";
                              "updated: 2024-01-02"])) "TODO").
  - reflexivity.
  - reflexivity.
  - intros field Hin. unfold REQUIRED_FIELDS in Hin. set_unfold in Hin.
    destruct Hin as [-> | [-> | [-> | [-> | [-> | [-> | []]]]]]];
      (eexists; split; [vm_compute; reflexivity | discriminate]).
  - intros status Hs. vm_compute in Hs. injection Hs as <-. by left.
  - reflexivity.
  - by do 2 right; left.
Defined.

Lemma foldl_app_errors {A} (f : A → list string) (l : list A) (acc : list string) :
  foldl (λ acc x, acc ++ f x) acc l = acc ++ concat (f <$> l).
Proof.
  revert acc. induction l as [|x l IH]; intros acc; simpl.
  - by rewrite app_nil_r.
  - by rewrite IH, app_assoc.
Qed.

Lemma concat_nil_iff {A} (ls : list (list A)) : concat ls = [] ↔ Forall (.= []) ls.
Proof.
  induction ls as [|l ls IH]; simpl; [by split; [constructor|]|].
  split.
  - intros [-> Hls]%app_eq_nil. constructor; [done | by apply IH].
  - intros Hall. inversion Hall as [|? ? -> Hls]; subst. simpl. by apply IH.
Qed.

Lemma elem_of_concat {A} (x : A) (l : list A) (ls : list (list A)) :
  x ∈ l → l ∈ ls → x ∈ concat ls.
Proof.
  intros Hx Hl. induction ls as [|l' ls IH]; [by apply elem_of_nil in Hl|].
  simpl. apply elem_of_app. apply elem_of_cons in Hl as [<- | Hl]; [by left|].
  right. by apply IH.
Qed.

(** X3.  In the mode [--all], [main] goes through every file of the
    walk that is not a reserved output: it returns 0 exactly when none of
    them has an error, and otherwise prints each error of each of them,
    so that a file with errors does not hide those of the files after it.
    With a path, it returns 0 exactly when the file at that path, as
    [Path] shows it, has no error, and otherwise prints the heading line
    and then one line for each error of the file, the first included, in
    their order. *)
Theorem validator_main_scans_all (path : option string) (walk : list string)
    (fs : gmap string string) :
  ((main path true walk fs).1 = 0 ↔
   ∀ p, p ∈ walk → path_name p ∉ reserved_names → validate_spec fs p = [])
  ∧ ((main path true walk fs).1 = 0 ∨ (main path true walk fs).1 = 1)
  ∧ (∀ p e, p ∈ walk → path_name p ∉ reserved_names → e ∈ validate_spec fs p →
            (main path true walk fs).1 = 1
            ∧ Printed ("  - " +:+ e) ∈ (main path true walk fs).2)
  ∧ (∀ p, path = Some p → p ≠ EmptyString →
          ((main path false walk fs).1 = 0 ↔ validate_spec fs (path_str p) = [])
          ∧ (validate_spec fs (path_str p) ≠ [] →
             main path false walk fs
             = (1, Printed "Validation errors:"
                   :: ((λ e, Printed ("  - " +:+ e))
                         <$> validate_spec fs (path_str p))))).
Proof.
  unfold main. simpl. rewrite foldl_app_errors. simpl.
  set (specs := filter (λ p, path_name p ∉ reserved_names) walk).
  assert (Hnil : concat (validate_spec fs <$> specs) = [] ↔
                 ∀ p, p ∈ walk → path_name p ∉ reserved_names → validate_spec fs p = []).
  { rewrite concat_nil_iff, Forall_fmap, Forall_forall. unfold specs. split.
    - intros Hall p Hp Hname. apply Hall. by apply list_elem_of_filter.
    - intros Hall p Hp. apply list_elem_of_filter in Hp as [Hname Hp]. by apply Hall. }
  assert (Hin : ∀ p e, p ∈ walk → path_name p ∉ reserved_names →
                       e ∈ validate_spec fs p →
                       e ∈ concat (validate_spec fs <$> specs)).
  { intros p e Hp Hname He. apply (elem_of_concat e (validate_spec fs p)); [done|].
    apply list_elem_of_fmap_2. by apply list_elem_of_filter. }
  destruct (concat (validate_spec fs <$> specs)) as [|e0 errors] eqn:E; simpl.
  - split; [by rewrite <- Hnil|]. split; [by left|]. split.
    + intros p e Hp Hname He. specialize (Hin p e Hp Hname He).
      by apply elem_of_nil in Hin.
    + intros p -> Hne. rewrite decide_False by done.
      by destruct (validate_spec fs (path_str p)).
  - split; [split; [done|]; intros Hall; by apply Hnil in Hall|].
    split; [by right|]. split.
    + intros p e Hp Hname He. split; [done|]. right.
      apply (list_elem_of_fmap_2 (λ e, Printed ("  - " +:+ e))). eauto.
    + intros p -> Hne. rewrite decide_False by done.
      by destruct (validate_spec fs (path_str p)).
Qed.

Lemma validator_main_scans_all_witness :
  ((main None true ["a.md"; "b.md"; "INDEX.md"]
      {[ "a.md" := bogus_status_doc; "b.md" := todo_issue_doc ]}).1 = 1
   ∧ Printed "  - Issue field is placeholder in b.md. Must reference actual issue."
     ∈ (main None true ["a.md"; "b.md"; "INDEX.md"]
          {[ "a.md" := bogus_status_doc; "b.md" := todo_issue_doc ]}).2)
  ∧ main (Some "./b.md") false [] {[ "b.md" := todo_issue_doc ]}
    = (1, [Printed "Validation errors:";
           Printed "  - Issue field is placeholder in b.md. Must reference actual issue."]).
Proof.
  split.
  - apply (validator_main_scans_all None ["a.md"; "b.md"; "INDEX.md"]
             {[ "a.md" := bogus_status_doc; "b.md" := todo_issue_doc ]}) with "b.md".
    + by right; left.
    + apply (bool_decide_unpack _). vm_compute. exact I.
    + vm_compute. by left.
  - destruct (validator_main_scans_all (Some "./b.md") [] {[ "b.md" := todo_issue_doc ]})
      as (_ & _ & _ & Hone).
    destruct (Hone "./b.md" eq_refl) as [_ Hprints]; [done|].
    rewrite Hprints; [vm_compute; reflexivity|]. vm_compute. discriminate.
Defined.

End ValidatorMore.

(** ** Header parsing: what the mapping holds *)

Section HeaderMore.
Import Py.

Lemma lstrip_head (s : string) :
  lstrip s = EmptyString ∨ ∃ c t, lstrip s = String c t ∧ is_space c = false.
Proof.
  induction s as [|a s IH]; [by left|]. simpl.
  destruct (is_space a) eqn:E; [done|]. right. by exists a, s.
Qed.

Lemma rstrip_head (c : ascii) (t : string) :
  is_space c = false → ∃ t', rstrip (String c t) = String c t'.
Proof.
  intros Hc. simpl. destruct (rstrip t) as [|b r].
  - rewrite Hc. by exists EmptyString.
  - by exists (String b r).
Qed.

Lemma rstrip_idem (s : string) : rstrip (rstrip s) = rstrip s.
Proof.
  induction s as [|a s IH]; [done|]. simpl.
  destruct (rstrip s) as [|b r] eqn:E.
  - destruct (is_space a) eqn:Ea; [done|]. simpl. by rewrite Ea.
  - change (rstrip (String a (String b r))) with
      (match rstrip (String b r) with
       | EmptyString => if is_space a then EmptyString else String a EmptyString
       | r' => String a r'
       end).
    by rewrite IH.
Qed.

Lemma strip_idem (s : string) : strip (strip s) = strip s.
Proof.
  unfold strip. destruct (lstrip_head s) as [-> | (c & t & -> & Hc)]; [done|].
  destruct (rstrip_head c t Hc) as [t' Ht]. rewrite Ht at 1.
  simpl lstrip. rewrite Hc, <- Ht. apply rstrip_idem.
Qed.

Lemma foldl_header_step_origin (lines : list string) (fm : gmap string string)
    (key value : string) :
  foldl header_step fm lines !! key = Some value →
  fm !! key = Some value
  ∨ ∃ line k v, line ∈ lines ∧ split_once ":" line = Some (k, v)
                ∧ strip k = key ∧ strip v = value.
Proof.
  revert fm. induction lines as [|line lines IH]; intros fm H; [by left|].
  simpl in H. apply IH in H as [H | (l & k & v & Hl & Hs & Hk & Hv)].
  - unfold header_step in H.
    destruct (split_once ":" line) as [[k v]|] eqn:E; [|by left].
    destruct (decide (strip k = key)) as [<- | Hne].
    + rewrite lookup_insert_eq in H. injection H as <-.
      right. exists line, k, v. by repeat split; [left|..].
    + rewrite lookup_insert_ne in H by done. by left.
  - right. exists l, k, v. by repeat split; [right|..].
Qed.

(** X4.  Every binding of the parsed header comes from a line of the
    block that has a colon: the key is the trimmed text before the first
    colon, the value the trimmed text after it, so keys and values never
    start or end with white space. *)
Theorem parse_header_bindings (block key value : string) :
  parse_header block !! key = Some value →
  (∃ line k v, line ∈ header_lines block ∧ split_once ":" line = Some (k, v)
               ∧ strip k = key ∧ strip v = value)
  ∧ strip key = key ∧ strip value = value.
Proof.
  intros H. apply foldl_header_step_origin in H as [H | (l & k & v & Hl & Hs & Hk & Hv)].
  - by rewrite lookup_empty in H.
  - split; [by exists l, k, v|]. subst. by rewrite !strip_idem.
Qed.

Lemma parse_header_bindings_witness :
  strip "Core  Auth" = "Core  Auth".
Proof.
  apply (parse_header_bindings
           (Py.join Py.nl ["title :  Login "; "note"; "domain: Core  Auth  "])
           "domain" "Core  Auth").
  reflexivity.
Defined.

End HeaderMore.

(** ** Header parsing: a header written line by line is read back *)

Section HeaderRoundTrip.
Import Py.

Lemma contains_nl_cons (a : ascii) (s : string) :
  contains nl (String a s) = false → a ≠ LF ∧ contains nl s = false.
Proof.
  intros [H1 H2]%contains_cons_false. split; [|done].
  intros ->. by cbv in H1.
Qed.

Lemma split_on_line (line s : string) :
  contains nl line = false →
  split_on LF (line +:+ String LF s) = line :: split_on LF s.
Proof.
  induction line as [|a line IH]; intros H.
  - by rewrite sapp_nil.
  - apply contains_nl_cons in H as [Ha H]. rewrite sapp_cons. simpl.
    rewrite decide_False by done. by rewrite IH.
Qed.

Lemma split_on_last_line (line : string) :
  contains nl line = false → split_on LF line = [line].
Proof.
  induction line as [|a line IH]; intros H; [done|].
  apply contains_nl_cons in H as [Ha H]. simpl.
  rewrite decide_False by done. by rewrite IH.
Qed.

Lemma split_on_join (lines : list string) :
  lines ≠ [] → Forall (λ l, contains nl l = false) lines →
  split_on LF (join nl lines) = lines.
Proof.
  induction lines as [|l1 [|l2 lines] IH]; intros Hne Hall; [done| |].
  - simpl. rewrite split_on_last_line; [done|]. by inversion Hall.
  - inversion Hall as [|? ? H1 Hrest]; subst.
    change (join nl (l1 :: l2 :: lines)) with (l1 +:+ String LF (join nl (l2 :: lines))).
    rewrite split_on_line by done. f_equal. by apply IH.
Qed.

Lemma split_once_first (c : ascii) (k r : string) :
  contains (String c EmptyString) k = false →
  split_once c (k +:+ String c r) = Some (k, r).
Proof.
  induction k as [|a k IH]; intros H.
  - rewrite sapp_nil. simpl. by rewrite decide_True.
  - apply contains_cons_false in H as [H1 H2]. rewrite sapp_cons. simpl.
    rewrite decide_False.
    + by rewrite IH.
    + intros ->. simpl in H1. by rewrite decide_True in H1.
Qed.

Lemma strip_fixed_head (k : string) :
  strip k = k → k ≠ EmptyString → ∃ c t, k = String c t ∧ is_space c = false.
Proof.
  unfold strip. intros Hk Hne.
  destruct (lstrip_head k) as [E | (c & t & E & Hc)]; rewrite E in Hk.
  - by destruct Hne.
  - destruct (rstrip_head c t Hc) as [t' Ht]. rewrite Ht in Hk.
    exists c, t'. by split.
Qed.

Lemma header_step_line (fm : gmap string string) (kv : string * string) :
  plain_pair kv → header_step fm (header_line kv) = <[kv.1 := kv.2]> fm.
Proof.
  destruct kv as [k v]. intros (Hk & _ & Hcolon & _ & _ & Hv & _). simpl in *.
  unfold header_step, header_line. simpl.
  change (k +:+ ": " +:+ v) with (k +:+ String ":" (String " " v)).
  rewrite split_once_first by done.
  rewrite Hk. change (strip (String " " v)) with (strip v). by rewrite Hv.
Qed.

Lemma foldl_header_lines (kvs : list (string * string)) (fm : gmap string string) :
  Forall plain_pair kvs →
  foldl header_step fm (header_line <$> kvs) = foldl (λ m kv, <[kv.1 := kv.2]> m) fm kvs.
Proof.
  revert fm. induction kvs as [|kv kvs IH]; intros fm Hall; [done|].
  inversion Hall; subst. simpl. rewrite header_step_line by done. by apply IH.
Qed.

Lemma header_line_one_line (kv : string * string) :
  plain_pair kv → contains nl (header_line kv) = false.
Proof.
  destruct kv as [k v]. intros (_ & _ & _ & Hk & _ & _ & Hv). simpl in *.
  unfold header_line. simpl. induction k as [|a k IH].
  - rewrite sapp_nil. by change (contains nl (": " +:+ v)) with (contains nl v).
  - apply contains_nl_cons in Hk as [Ha Hk]. rewrite sapp_cons. simpl.
    rewrite decide_False by done. by apply IH.
Qed.

(** The pattern [\n---] does not match where a header line starts. *)
Lemma header_line_not_delimiter (kv : string * string) (s : string) :
  plain_pair kv → starts_with "---" (header_line kv +:+ s) = false.
Proof.
  destruct kv as [k v]. intros (_ & _ & _ & _ & Hk & _). simpl in *.
  unfold header_line. simpl. rewrite sapp_assoc.
  change (": " +:+ v +:+ s) with (String ":" (String " " (v +:+ s))).
  destruct k as [|a [|b [|c k]]]; simpl in *; rewrite ?sapp_cons, ?sapp_nil; simpl;
    repeat case_decide; try done.
Qed.

Lemma lazy_over_line (line s : string) :
  contains nl line = false →
  re_lazy (re_lit closing accept) (line +:+ s)
  = match re_lazy (re_lit closing accept) s with
    | Some (g, r) => Some (line +:+ g, r)
    | None => None
    end.
Proof.
  induction line as [|a line IH]; intros H.
  - rewrite sapp_nil. by destruct (re_lazy _ s) as [[g r]|].
  - apply contains_nl_cons in H as [Ha H]. rewrite sapp_cons.
    rewrite re_lazy_later.
    + rewrite IH by done. by destruct (re_lazy _ s) as [[g r]|].
    + unfold re_lit, closing. simpl. by rewrite decide_False.
Qed.

Lemma lazy_over_block (kvs : list (string * string)) (rest : string) :
  kvs ≠ [] → Forall plain_pair kvs →
  re_lazy (re_lit closing accept) (join nl (header_line <$> kvs) +:+ closing +:+ rest)
  = Some (join nl (header_line <$> kvs), rest).
Proof.
  induction kvs as [|kv1 [|kv2 kvs] IH]; intros Hne Hall; [done| |].
  - inversion Hall; subst. simpl join.
    rewrite lazy_over_line by (by apply header_line_one_line).
    rewrite (re_lazy_here _ _ rest).
    + by rewrite sapp_empty_r.
    + unfold re_lit. by rewrite starts_with_app, drop_sapp.
  - inversion Hall as [|? ? H1 Hrest]; subst.
    change (join nl (header_line <$> kv1 :: kv2 :: kvs))
      with (header_line kv1 +:+ String LF (join nl (header_line <$> kv2 :: kvs))).
    rewrite sapp_assoc, sapp_cons.
    rewrite lazy_over_line by (by apply header_line_one_line).
    rewrite re_lazy_later.
    + by rewrite IH.
    + unfold re_lit, closing. rewrite starts_with_cons, decide_True by done.
      assert (∃ t, join nl (header_line <$> kv2 :: kvs) +:+ String LF "---" +:+ rest
                   = header_line kv2 +:+ t) as [t ->].
      { destruct kvs as [|kv3 kvs]; [by eexists|].
        change (join nl (header_line <$> kv2 :: kv3 :: kvs))
          with (header_line kv2 +:+ String LF (join nl (header_line <$> kv3 :: kvs))).
        rewrite sapp_assoc. by eexists. }
      rewrite header_line_not_delimiter; [done|]. by inversion Hrest.
Qed.

Lemma frontmatter_match_document (kvs : list (string * string)) (rest : string) :
  kvs ≠ [] → Forall plain_pair kvs →
  frontmatter_match (document_with_header kvs rest)
  = Some (join nl (header_line <$> kvs)).
Proof.
  intros Hne Hall. unfold frontmatter_match, document_with_header, re_lit.
  rewrite starts_with_app, drop_sapp.
  destruct kvs as [|kv kvs]; [done|]. inversion Hall as [|? ? Hkv Hrest]; subst.
  destruct Hkv as (Hk & Hkne & Hkv').
  destruct (strip_fixed_head _ Hk Hkne) as (c & t & Ek & Hc).
  assert (∃ s, join nl (header_line <$> kv :: kvs) +:+ String LF "---" +:+ rest
               = String c s) as [s Es].
  { destruct kv as [k v]. simpl in Ek. subst k.
    destruct kvs; unfold header_line; simpl; rewrite ?sapp_cons; by eexists. }
  rewrite Es.
  rewrite (re_ws_nl_run _ EmptyString c s (join nl (header_line <$> kv :: kvs), rest));
    [done | done | done |].
  rewrite <- Es. by apply (lazy_over_block (kv :: kvs) rest).
Qed.

Lemma dict_of_list_to_map (kvs : list (string * string)) (fm : gmap string string) :
  foldl (λ m kv, <[kv.1 := kv.2]> m) fm kvs = list_to_map (reverse kvs) ∪ fm.
Proof.
  revert fm. induction kvs as [|[k v] kvs IH]; intros fm; simpl.
  - by rewrite (left_id_L ∅ (∪)).
  - rewrite IH, reverse_cons, list_to_map_app. simpl.
    rewrite insert_empty, <- (assoc_L (∪)). by rewrite <- insert_union_singleton_l.
Qed.

Lemma dict_of_lookup (kvs : list (string * string)) (k v : string) :
  NoDup kvs.*1 → (dict_of kvs !! k = Some v ↔ (k, v) ∈ kvs).
Proof.
  intros Hnd. unfold dict_of. rewrite dict_of_list_to_map, (right_id_L ∅ (∪)).
  rewrite <- elem_of_list_to_map.
  - by rewrite elem_of_reverse.
  - by rewrite fmap_reverse, reverse_Permutation.
Qed.

(** X5.  A header written as one [key: value] line per pair, between
    the two delimiters, is read back by every parser as the dictionary of
    those pairs, a later pair replacing an earlier one with the same key;
    when the keys differ pairwise, the bindings are exactly the pairs.
    The pairs must be plain: trimmed, on one line, the key not empty,
    without colon and not starting with the delimiter. *)
Theorem header_round_trip (kvs : list (string * string)) (rest : string) :
  kvs ≠ [] → Forall plain_pair kvs →
  GenerateIndex.parse_frontmatter (document_with_header kvs rest) = dict_of kvs
  ∧ GenerateSnapshot.parse_frontmatter (document_with_header kvs rest) = dict_of kvs
  ∧ ValidateSpec.parse_frontmatter (document_with_header kvs rest) = Some (dict_of kvs)
  ∧ (NoDup kvs.*1 → ∀ k v, dict_of kvs !! k = Some v ↔ (k, v) ∈ kvs).
Proof.
  intros Hne Hall.
  unfold GenerateIndex.parse_frontmatter, GenerateSnapshot.parse_frontmatter,
    ValidateSpec.parse_frontmatter.
  rewrite (frontmatter_match_document kvs rest Hne Hall).
  assert (parse_header (join nl (header_line <$> kvs)) = dict_of kvs) as ->.
  { unfold parse_header, header_lines. rewrite split_on_join.
    - by apply foldl_header_lines.
    - by destruct kvs.
    - apply Forall_fmap. eapply Forall_impl; [done|].
      intros kv Hkv. by apply header_line_one_line. }
  repeat split; try done.
  - by apply dict_of_lookup.
  - by apply dict_of_lookup.
Qed.

Lemma header_round_trip_witness :
  GenerateIndex.parse_frontmatter
    (document_with_header [("title", "Login: the form"); ("status", "active")]
       (nl +:+ "# Login"))
  = dict_of [("title", "Login: the form"); ("status", "active")].
Proof.
  apply (header_round_trip [("title", "Login: the form"); ("status", "active")]
           (nl +:+ "# Login")).
  - discriminate.
  - repeat constructor; discriminate.
Defined.

End HeaderRoundTrip.

(** ** Sorting as the index and the snapshot use it *)

Section SortedBy.
Import PyMore.
Context {A : Type} (key : A → string).

Lemma leb_le (s1 s2 : string) : String.leb s1 s2 = true ↔ String.le s1 s2.
Proof. unfold String.le. by destruct (String.leb s1 s2). Qed.

Lemma insert_sorted_perm (x : A) (l : list A) : insert_sorted key x l ≡ₚ x :: l.
Proof.
  induction l as [|y l IH]; [done|]. simpl.
  destruct (String.leb (key x) (key y)); [done|].
  rewrite IH. apply Permutation_swap.
Qed.

Lemma sorted_by_perm (l : list A) : sorted_by key l ≡ₚ l.
Proof.
  induction l as [|x l IH]; [done|]. unfold sorted_by in *. simpl.
  by rewrite insert_sorted_perm, IH.
Qed.

Lemma insert_sorted_sorted (x : A) (l : list A) :
  StronglySorted (key_le key) l → StronglySorted (key_le key) (insert_sorted key x l).
Proof.
  induction 1 as [|y l Hl IH Hy]; simpl.
  - by repeat constructor.
  - destruct (String.leb (key x) (key y)) eqn:E.
    + apply leb_le in E. constructor; [by constructor|].
      constructor; [done|]. eapply Forall_impl; [done|].
      intros z Hz. unfold key_le in *. by etrans.
    + constructor; [done|]. rewrite insert_sorted_perm. constructor; [|done].
      unfold key_le. destruct (total String.le (key x) (key y)) as [Hxy|]; [|done].
      apply leb_le in Hxy. congruence.
Qed.

Lemma sorted_by_sorted (l : list A) : StronglySorted (key_le key) (sorted_by key l).
Proof.
  induction l as [|x l IH]; [constructor|]. by apply insert_sorted_sorted.
Qed.

Lemma insert_sorted_filter (k : string) (x : A) (l : list A) :
  filter (λ z, key z = k) (insert_sorted key x l) = filter (λ z, key z = k) (x :: l).
Proof.
  induction l as [|y l IH]; [done|]. simpl.
  destruct (String.leb (key x) (key y)) eqn:E; [done|].
  rewrite filter_cons, IH, !filter_cons.
  destruct (decide (key y = k)) as [Hy|]; destruct (decide (key x = k)) as [Hx|];
    try done.
  assert (String.leb (key x) (key y) = true); [|congruence].
  apply leb_le. by rewrite Hx, Hy.
Qed.

Lemma sorted_by_filter (k : string) (l : list A) :
  filter (λ z, key z = k) (sorted_by key l) = filter (λ z, key z = k) l.
Proof.
  induction l as [|x l IH]; [done|]. unfold sorted_by in *. simpl.
  by rewrite insert_sorted_filter, !filter_cons, IH.
Qed.

End SortedBy.

(** ** The index: order of the rows, totals, reserved files *)

Section IndexMore.
Import PyMore GenerateIndex.

(** X6.  The rows of a table of the index are those of the entries of
    its bucket, each once, in ascending order of the [created] text
    (compared as strings); entries with the same [created] keep the order
    in which the walk found them. *)
Theorem index_rows_sorted (l : list entry) :
  ∃ sorted, rows l = row <$> sorted
            ∧ sorted ≡ₚ l
            ∧ StronglySorted (key_le entry_created) sorted
            ∧ ∀ created, filter (λ e, entry_created e = created) sorted
                         = filter (λ e, entry_created e = created) l.
Proof.
  exists (sorted_by entry_created l). split; [done|].
  split; [apply sorted_by_perm|]. split; [apply sorted_by_sorted|].
  intros created. apply sorted_by_filter.
Qed.

Lemma bucket_categorize_all (specs : list md_file) (k : string) :
  bucket (categorize specs) k = entry_of <$> filter (λ f, status_of f = k) specs.
Proof. unfold categorize. rewrite bucket_categorize. unfold bucket. by rewrite lookup_empty. Qed.

Lemma count_status_partition (specs : list md_file) :
  length specs
  = count_status "active" specs + count_status "deprecated" specs
    + count_status "archived" specs
    + length (filter (λ f, status_of f ∉ shown_statuses) specs).
Proof.
  unfold count_status. induction specs as [|f specs IH]; [done|].
  rewrite !filter_cons. simpl length. rewrite IH.
  destruct (decide (status_of f = "active")) as [E|Ha];
    [rewrite E; simpl; lia|].
  destruct (decide (status_of f = "deprecated")) as [E|Hd];
    [rewrite E; simpl; lia|].
  destruct (decide (status_of f = "archived")) as [E|Hr];
    [rewrite E; simpl; lia|].
  rewrite decide_True; [simpl; lia|].
  unfold shown_statuses. rewrite !not_elem_of_cons. by repeat split; try apply not_elem_of_nil.
Qed.

Lemma filter_shown_status (k : string) (specs : list md_file) :
  k ∈ shown_statuses →
  filter (λ f, status_of f = k) (filter (λ f, status_of f ∈ shown_statuses) specs)
  = filter (λ f, status_of f = k) specs.
Proof.
  intros Hk. rewrite list_filter_filter. apply list_filter_iff.
  intros f. split; [by intros [? ?]|]. intros E. split; [done|]. by rewrite E.
Qed.

Lemma spec_files_filter (P : md_file → Prop) `{∀ f, Decision (P f)}
    (files : list md_file) :
  spec_files (filter P files) = filter P (spec_files files).
Proof.
  unfold spec_files. rewrite !list_filter_filter. apply list_filter_iff.
  intros f. tauto.
Qed.

(** X7.  The total of the index counts every specification, whatever its
    status; the three counts beside it and the three tables take only the
    specifications whose status is active, deprecated or archived.  A
    specification with any other status (superseded, a misspelt one) adds
    to the total and changes nothing after the line of the totals. *)
Theorem index_total_counts_all (files : list md_file) (today : string) :
  index_lines files today !! 4
  = Some (total_line (length (spec_files files))
            (count_status "active" (spec_files files))
            (count_status "deprecated" (spec_files files))
            (count_status "archived" (spec_files files)))
  ∧ length (spec_files files)
    = count_status "active" (spec_files files)
      + count_status "deprecated" (spec_files files)
      + count_status "archived" (spec_files files)
      + length (filter (λ f, status_of f ∉ shown_statuses) (spec_files files))
  ∧ drop 6 (index_lines files today)
    = drop 6 (index_lines (filter (λ f, status_of f ∈ shown_statuses) files) today).
Proof.
  split; [|split].
  - unfold index_lines, count_status. simpl.
    by rewrite !bucket_categorize_all, !length_fmap.
  - apply count_status_partition.
  - unfold index_lines. cbn [drop app].
    rewrite !bucket_categorize_all, spec_files_filter.
    by rewrite !filter_shown_status by (unfold shown_statuses; set_solver).
Qed.

(** X8.  A file named [INDEX.md], [SNAPSHOT.md] or [glossary.md], in
    whatever directory of the walk, changes neither the index nor the
    snapshot: the outputs of an earlier run are not read back. *)
Theorem reserved_files_are_skipped (before after : list md_file) (f : md_file)
    (today : string) :
  path_name (file_path f) ∈ reserved_names →
  generate_index (before ++ f :: after) today = generate_index (before ++ after) today
  ∧ GenerateSnapshot.generate_snapshot (before ++ f :: after) today
    = GenerateSnapshot.generate_snapshot (before ++ after) today.
Proof.
  intros Hname.
  assert (is_spec_file f = false) as Hskip.
  { unfold is_spec_file. by apply bool_decide_eq_false; intros H; apply H. }
  split.
  - unfold generate_index, index_lines, spec_files.
    by rewrite !filter_app, filter_cons, decide_False by (by rewrite Hskip).
  - unfold GenerateSnapshot.generate_snapshot, GenerateSnapshot.collect.
    rewrite !foldl_collect_step, !filter_app, filter_cons.
    rewrite decide_False; [done|]. intros [Hs _]. by rewrite Hskip in Hs.
Qed.

Lemma reserved_files_are_skipped_witness :
  generate_index
    ([MdFile "a.md" active_status_doc] ++ MdFile "sub/INDEX.md" "# Spec Index" :: [])
    "2024-05-01"
  = generate_index ([MdFile "a.md" active_status_doc] ++ []) "2024-05-01".
Proof.
  apply (reserved_files_are_skipped [MdFile "a.md" active_status_doc] []
           (MdFile "sub/INDEX.md" "# Spec Index") "2024-05-01").
  by left.
Defined.

End IndexMore.

(** ** The snapshot: empty corpus, grouping by domain *)

Section SnapshotMore.
Import PyMore GenerateSnapshot.

(** X9.  When no file of the walk is kept (none is an active
    specification), the snapshot is the fixed text with the line
    [*No active specs yet*], without a table of contents. *)
Theorem snapshot_of_no_active_specs (files : list md_file) (today : string) :
  (∀ f, f ∈ files → ¬ snapshot_keeps f) →
  generate_snapshot files today = empty_snapshot today.
Proof.
  intros Hnone. unfold generate_snapshot, collect.
  rewrite foldl_collect_step, filter_none by done. reflexivity.
Qed.

Lemma snapshot_of_no_active_specs_witness :
  generate_snapshot [MdFile "a.md" capitalised_status_doc; MdFile "b.md" no_status_doc]
    "2024-05-01"
  = empty_snapshot "2024-05-01".
Proof.
  apply snapshot_of_no_active_specs. intros f Hf [_ Hactive].
  apply elem_of_cons in Hf as [-> | Hf]; [by vm_compute in Hactive|].
  apply list_elem_of_singleton in Hf as ->. by vm_compute in Hactive.
Defined.

Lemma bucket_group (specs : list spec) (m : gmap string (list spec)) (d : string) :
  bucket (foldl (λ by_domain s, append_at (spec_domain s) s by_domain) m specs) d
  = bucket m d ++ filter (λ s, spec_domain s = d) specs.
Proof.
  revert m. induction specs as [|s specs IH]; intros m; simpl.
  - by rewrite app_nil_r.
  - rewrite IH, bucket_append_at, filter_cons.
    case_decide; [by rewrite <- app_assoc | done].
Qed.

Lemma group_keys (specs : list spec) (m : gmap string (list spec)) (d : string) :
  is_Some (foldl (λ by_domain s, append_at (spec_domain s) s by_domain) m specs !! d)
  ↔ is_Some (m !! d) ∨ ∃ s, s ∈ specs ∧ spec_domain s = d.
Proof.
  revert m. induction specs as [|s specs IH]; intros m; simpl.
  - split; [by left|]. intros [H | (s & Hs & _)]; [done|]. by apply elem_of_nil in Hs.
  - rewrite IH. unfold append_at. split.
    + intros [H | (s' & Hs' & Hd)].
      * destruct (decide (spec_domain s = d)) as [E|Hne].
        -- right. exists s. split; [by left | done].
        -- rewrite lookup_insert_ne in H by done. by left.
      * right. exists s'. split; [by right | done].
    + intros [H | (s' & Hs' & Hd)].
      * left. destruct (decide (spec_domain s = d)) as [<-|Hne].
        -- by rewrite lookup_insert_eq.
        -- by rewrite lookup_insert_ne.
      * apply elem_of_cons in Hs' as [-> | Hs'].
        -- left. rewrite Hd. by rewrite lookup_insert_eq.
        -- right. by exists s'.
Qed.

(** X10.  The snapshot has one section per domain that a kept
    specification names, each domain once and in ascending order; the
    section of a domain lists exactly the kept specifications of that
    domain, sorted by title. *)
Theorem snapshot_groups_by_domain (specs : list spec) (d : string) :
  (d ∈ sorted_keys (group_by_domain specs) ↔ ∃ s, s ∈ specs ∧ spec_domain s = d)
  ∧ NoDup (sorted_keys (group_by_domain specs))
  ∧ StronglySorted String.le (sorted_keys (group_by_domain specs))
  ∧ domain_lines (group_by_domain specs) d
    = ["### " +:+ d; EmptyString]
      ++ concat (spec_lines <$> sorted_by spec_title
                                  (filter (λ s, spec_domain s = d) specs)).
Proof.
  unfold sorted_keys. split; [|split; [|split]].
  - rewrite sorted_by_perm, elem_of_elements, elem_of_dom.
    unfold group_by_domain. rewrite group_keys, lookup_empty.
    split; [intros [[? ?] | ?]; done | by right].
  - rewrite sorted_by_perm. apply NoDup_elements.
  - apply (sorted_by_sorted id).
  - unfold domain_lines, group_by_domain. rewrite bucket_group.
    unfold bucket. by rewrite lookup_empty.
Qed.

End SnapshotMore.

(** ** The overview is trimmed *)

(** X11.  Whatever the document, the overview that [extract_overview]
    returns neither starts nor ends with white space: trimming it again
    changes nothing. *)
Theorem extract_overview_trimmed (content : string) :
  Py.strip (GenerateSnapshot.extract_overview content)
  = GenerateSnapshot.extract_overview content.
Proof.
  unfold GenerateSnapshot.extract_overview.
  destruct (GenerateSnapshot.re_search _ _); [apply strip_idem | reflexivity].
Qed.

(** ** Component tokens *)

Section Components.
Import Py Scaffolding.

Lemma split_once_None (c : ascii) (s : string) :
  split_once c s = None ↔ contains (String c EmptyString) s = false.
Proof.
  induction s as [|a s IH]; [done|]. simpl.
  destruct (decide (a = c)) as [->|Hne].
  - rewrite decide_True by done. by split.
  - rewrite decide_False by congruence. simpl.
    destruct (split_once c s) as [[l r]|]; [|by rewrite <- IH].
    split; [done|]. intros H. by apply IH in H.
Qed.

Lemma split_once_Some (c : ascii) (s l r : string) :
  split_once c s = Some (l, r) →
  s = l +:+ String c r ∧ contains (String c EmptyString) l = false.
Proof.
  revert l. induction s as [|a s IH]; intros l; [done|]. simpl.
  destruct (decide (a = c)) as [->|Hne].
  - intros [= <- <-]. by split.
  - destruct (split_once c s) as [[l' r']|]; [|done].
    intros [= <- <-]. destruct (IH l' eq_refl) as [-> Hl]. split; [done|].
    simpl. rewrite decide_False by congruence. by rewrite Hl.
Qed.

(** X12.  A token without colon is a component of that type, without
    name, in the directory of the same name; a token [type:name] is split
    at its first colon, so the type never holds a colon, and its
    directory is [type-name].  The display string gives the token back,
    except that a token ending in its first colon loses that colon. *)
Theorem parse_component_token (component : string) :
  (contains ":" component = false →
   parse_component component = ParsedComponent component None component)
  ∧ (∀ ctype cname, contains ":" ctype = false →
       parse_component (ctype +:+ ":" +:+ cname)
       = ParsedComponent ctype (Some cname) (ctype +:+ "-" +:+ cname))
  ∧ contains ":" (component_type (parse_component component)) = false
  ∧ (component_display (parse_component component) = component
     ∨ component = component_display (parse_component component) +:+ ":").
Proof.
  unfold parse_component. split; [|split; [|split]].
  - intros H. apply split_once_None in H. by rewrite H.
  - intros ctype cname H.
    change (ctype +:+ ":" +:+ cname) with (ctype +:+ String ":" cname).
    by rewrite split_once_first.
  - destruct (split_once ":" component) as [[l r]|] eqn:E; simpl.
    + by apply split_once_Some in E as [_ ?].
    + by apply split_once_None.
  - destruct (split_once ":" component) as [[l r]|] eqn:E;
      unfold component_display; simpl; [|by left].
    apply split_once_Some in E as [-> _].
    case_decide as Hr; [subst r; by right | by left].
Qed.

Lemma parse_component_token_witness :
  parse_component "webapp" = ParsedComponent "webapp" None "webapp"
  ∧ parse_component ("server" +:+ ":" +:+ "api:v2")
    = ParsedComponent "server" (Some "api:v2") "server-api:v2".
Proof.
  destruct (parse_component_token "webapp") as (Hplain & Hnamed & _).
  split; [by apply Hplain | by apply Hnamed].
Defined.

(** X13.  [has_component_type] holds for a type exactly when
    [get_components_by_type] finds a component, which is exactly when the
    type is in the set that [scaffold_project] tests; every component
    found has that type and stems from a token of the list. *)
Theorem component_type_lookups_agree (comps : list string) (ctype : string) :
  (has_component_type comps ctype = true ↔ get_components_by_type comps ctype ≠ [])
  ∧ (has_component_type comps ctype = true ↔ ctype ∈ component_types_of comps)
  ∧ (∀ pc, pc ∈ get_components_by_type comps ctype ↔
           ∃ c, c ∈ comps ∧ pc = parse_component c ∧ component_type pc = ctype).
Proof.
  assert (Hhas : has_component_type comps ctype = true ↔
                 ∃ c, c ∈ comps ∧ component_type (parse_component c) = ctype).
  { unfold has_component_type. rewrite existsb_exists. split.
    - intros (c & Hc & E). exists c. split; [by apply list_elem_of_In|].
      by apply bool_decide_eq_true in E.
    - intros (c & Hc & E). exists c. split; [by apply list_elem_of_In|].
      by apply bool_decide_eq_true. }
  assert (Hget : ∀ pc, pc ∈ get_components_by_type comps ctype ↔
                   ∃ c, c ∈ comps ∧ pc = parse_component c ∧ component_type pc = ctype).
  { intros pc. unfold get_components_by_type. rewrite list_elem_of_fmap. split.
    - intros (c & -> & Hc). apply list_elem_of_filter in Hc as [E Hc]. by exists c.
    - intros (c & Hc & -> & E). exists c. split; [done|].
      by apply list_elem_of_filter. }
  split; [|split; [|done]].
  - rewrite Hhas. split.
    + intros (c & Hc & E) Hnil.
      assert (parse_component c ∈ get_components_by_type comps ctype) as Hin
        by (apply Hget; by exists c).
      rewrite Hnil in Hin. by apply elem_of_nil in Hin.
    + intros Hne. destruct (get_components_by_type comps ctype) as [|pc l] eqn:E;
        [done|].
      assert (pc ∈ pc :: l) as Hin by (by left).
      apply Hget in Hin as (c & Hc & -> & Ht). by exists c.
  - rewrite Hhas. unfold component_types_of.
    rewrite elem_of_list_to_set, list_elem_of_fmap. split.
    + intros (c & Hc & E). exists (parse_component c). split; [done|].
      by apply list_elem_of_fmap_2.
    + intros (pc & -> & Hpc). apply list_elem_of_fmap in Hpc as (c & -> & Hc).
      by exists c.
Qed.

End Components.

(** ** Placeholder substitution *)

Section Substitution.
Import Py ScaffoldCommon.

Lemma starts_with_sapp_l (p q s : string) :
  starts_with (p +:+ q) s = true → starts_with p s = true.
Proof.
  revert s. induction p as [|a p IH]; intros [|b s]; try done.
  rewrite sapp_cons. simpl. case_decide; [apply IH | done].
Qed.

Lemma contains_sapp_pattern (p q s : string) :
  contains p s = false → contains (p +:+ q) s = false.
Proof.
  induction s as [|a s IH]; intros H.
  - destruct p; [done|]. by rewrite sapp_cons.
  - apply contains_cons_false in H as [H1 H2]. simpl.
    rewrite IH by done. rewrite orb_false_r.
    destruct (starts_with (p +:+ q) (String a s)) eqn:E; [|done].
    apply starts_with_sapp_l in E. congruence.
Qed.

Lemma replace_from_absent (old new s : string) :
  contains old s = false → replace_from old new 0 s = s.
Proof.
  induction s as [|a s IH]; intros H; [done|].
  apply contains_cons_false in H as [H1 H2]. simpl.
  simpl in H1. rewrite H1. by rewrite IH.
Qed.

(** X14.  A template without the characters [{{] is left as it is by
    the substitution, whatever the three values are. *)
Theorem substitute_without_placeholder (content : string) (v : variables) :
  contains "{{" content = false → substitute_variables content v = content.
Proof.
  intros H. unfold substitute_variables, replace.
  rewrite (replace_from_absent "{{PROJECT_NAME}}")
    by (by apply (contains_sapp_pattern "{{" "PROJECT_NAME}}")).
  rewrite (replace_from_absent "{{PROJECT_DESCRIPTION}}")
    by (by apply (contains_sapp_pattern "{{" "PROJECT_DESCRIPTION}}")).
  by rewrite (replace_from_absent "{{PRIMARY_DOMAIN}}")
    by (by apply (contains_sapp_pattern "{{" "PRIMARY_DOMAIN}}")).
Qed.

Lemma substitute_without_placeholder_witness :
  substitute_variables "port: 8080" demo_variables = "port: 8080".
Proof. by apply substitute_without_placeholder. Defined.

Lemma replace_from_skip (old new x rest : string) :
  replace_from old new (String.length x) (x +:+ rest) = replace_from old new 0 rest.
Proof.
  induction x as [|a x IH]; [by destruct rest|]. by rewrite sapp_cons.
Qed.

Lemma replace_from_here (o : ascii) (old new rest : string) :
  replace_from (String o old) new 0 (String o old +:+ rest)
  = new +:+ replace_from (String o old) new 0 rest.
Proof.
  rewrite sapp_cons. cbn [replace_from].
  rewrite starts_with_cons, decide_True, starts_with_app by done.
  replace (String.length (String o old) - 1) with (String.length old)
    by (simpl; lia).
  by rewrite replace_from_skip.
Qed.

Lemma replace_from_over (o : ascii) (old new seg rest : string) :
  contains (String o EmptyString) seg = false →
  replace_from (String o old) new 0 (seg +:+ rest)
  = seg +:+ replace_from (String o old) new 0 rest.
Proof.
  induction seg as [|a seg IH]; intros H; [done|].
  apply contains_cons_false in H as [H1 H2]. rewrite !sapp_cons. cbn [replace_from].
  assert (o ≠ a) as Hne.
  { intros ->. simpl in H1. by rewrite decide_True in H1. }
  rewrite starts_with_cons, decide_False by done. by rewrite IH.
Qed.

Lemma replace_join (o : ascii) (old new : string) (segs : list string) :
  Forall (λ seg, contains (String o EmptyString) seg = false) segs →
  replace (String o old) new (join (String o old) segs) = join new segs.
Proof.
  unfold replace. induction segs as [|seg [|seg2 segs] IH]; intros Hall; [done| |].
  - inversion Hall; subst. simpl.
    rewrite <- (sapp_empty_r seg) at 1. rewrite replace_from_over by done.
    by rewrite sapp_empty_r.
  - inversion Hall as [|? ? H1 Hrest]; subst.
    change (join (String o old) (seg :: seg2 :: segs))
      with (seg +:+ String o old +:+ join (String o old) (seg2 :: segs)).
    change (join new (seg :: seg2 :: segs))
      with (seg +:+ new +:+ join new (seg2 :: segs)).
    rewrite replace_from_over by done. rewrite replace_from_here. by rewrite IH.
Qed.

Lemma contains_char_sapp (o : ascii) (a b : string) :
  contains (String o EmptyString) a = false →
  contains (String o EmptyString) b = false →
  contains (String o EmptyString) (a +:+ b) = false.
Proof.
  intros Ha Hb. induction a as [|x a IH]; [done|].
  apply contains_cons_false in Ha as [H1 H2]. rewrite sapp_cons. simpl.
  simpl in H1. rewrite H1. by apply IH.
Qed.

Lemma contains_char_join (o : ascii) (sep : string) (segs : list string) :
  contains (String o EmptyString) sep = false →
  Forall (λ seg, contains (String o EmptyString) seg = false) segs →
  contains (String o EmptyString) (join sep segs) = false.
Proof.
  intros Hsep. induction segs as [|seg [|seg2 segs] IH]; intros Hall; [done| |].
  - by inversion Hall.
  - inversion Hall as [|? ? H1 Hrest]; subst.
    change (join sep (seg :: seg2 :: segs))
      with (seg +:+ sep +:+ join sep (seg2 :: segs)).
    apply contains_char_sapp; [done|]. apply contains_char_sapp; [done|]. by apply IH.
Qed.

(** X15.  In a template made of pieces without brace that
    [{{PROJECT_NAME}}] joins, the substitution puts the project name in
    the place of every occurrence of the token and changes nothing else,
    provided the name holds no brace either. *)
Theorem substitute_every_project_name (segs : list string) (v : variables) :
  Forall (λ seg, contains "{" seg = false) segs →
  contains "{" (project_name v) = false →
  substitute_variables (join "{{PROJECT_NAME}}" segs) v = join (project_name v) segs.
Proof.
  intros Hsegs Hname. unfold substitute_variables.
  rewrite (replace_join "{" "{PROJECT_NAME}}") by done.
  assert (contains "{" (join (project_name v) segs) = false) as Hout
    by (by apply contains_char_join).
  unfold replace.
  rewrite (replace_from_absent "{{PROJECT_DESCRIPTION}}")
    by (by apply (contains_sapp_pattern "{" "{PROJECT_DESCRIPTION}}")).
  by rewrite (replace_from_absent "{{PRIMARY_DOMAIN}}")
    by (by apply (contains_sapp_pattern "{" "{PRIMARY_DOMAIN}}")).
Qed.

Lemma substitute_every_project_name_witness :
  substitute_variables
    (join "{{PROJECT_NAME}}" ["# "; " - getting started with "; EmptyString])
    demo_variables
  = "# demo - getting started with demo".
Proof.
  apply (substitute_every_project_name ["# "; " - getting started with "; EmptyString]
           demo_variables).
  - by repeat constructor.
  - reflexivity.
Defined.

End Substitution.

(** ** Paths *)

Section Paths.
Import Py FS.

Lemma split_on_no_sep (c : ascii) (s : string) :
  Forall (λ x, contains (String c EmptyString) x = false) (split_on c s).
Proof.
  induction s as [|a s IH]; [by repeat constructor|]. simpl.
  destruct (decide (a = c)) as [->|Hne]; [by constructor|].
  destruct (split_on c s) as [|h t]; inversion IH as [|? ? Hh Ht]; subst.
  - repeat constructor. simpl. by rewrite decide_False by congruence.
  - constructor; [|done]. simpl. rewrite decide_False by congruence. by rewrite Hh.
Qed.

Lemma components_clean (p : string) : Forall clean (components p).
Proof.
  unfold components. apply Forall_forall. intros c Hc.
  apply list_elem_of_filter in Hc as [Hc Hin]. split; [done|].
  by apply (proj1 (Forall_forall _ _) (split_on_no_sep "/" p)).
Qed.

Lemma split_on_piece (c : ascii) (piece s : string) :
  contains (String c EmptyString) piece = false →
  split_on c (piece +:+ String c s) = piece :: split_on c s.
Proof.
  induction piece as [|a piece IH]; intros H.
  - rewrite sapp_nil. simpl. by rewrite decide_True.
  - apply contains_cons_false in H as [H1 H2]. rewrite sapp_cons. simpl.
    assert (a ≠ c) as Hne.
    { intros ->. simpl in H1. by rewrite decide_True in H1. }
    rewrite decide_False by done. by rewrite IH.
Qed.

Lemma split_on_last_piece (c : ascii) (piece : string) :
  contains (String c EmptyString) piece = false → split_on c piece = [piece].
Proof.
  induction piece as [|a piece IH]; intros H; [done|].
  apply contains_cons_false in H as [H1 H2]. simpl.
  assert (a ≠ c) as Hne.
  { intros ->. simpl in H1. by rewrite decide_True in H1. }
  rewrite decide_False by done. by rewrite IH.
Qed.

Lemma split_on_join_pieces (c : ascii) (pieces : list string) :
  pieces ≠ [] → Forall (λ x, contains (String c EmptyString) x = false) pieces →
  split_on c (join (String c EmptyString) pieces) = pieces.
Proof.
  induction pieces as [|p1 [|p2 pieces] IH]; intros Hne Hall; [done| |].
  - simpl. rewrite split_on_last_piece; [done|]. by inversion Hall.
  - inversion Hall as [|? ? H1 Hrest]; subst.
    change (join (String c EmptyString) (p1 :: p2 :: pieces))
      with (p1 +:+ String c (join (String c EmptyString) (p2 :: pieces))).
    rewrite split_on_piece by done. f_equal. by apply IH.
Qed.

Lemma filter_all {A} (P : A → Prop) `{∀ x, Decision (P x)} (l : list A) :
  Forall P l → filter P l = l.
Proof.
  induction 1 as [|x l Hx Hl IH]; [done|]. by rewrite filter_cons, decide_True, IH.
Qed.

(** Components are read back from the path that they spell. *)
Lemma components_of_components (cs : list string) :
  Forall clean cs → components (of_components cs) = cs.
Proof.
  intros Hall. unfold components, of_components.
  destruct cs as [|c cs]; [done|].
  rewrite split_on_join_pieces; [|done|].
  - apply filter_all. eapply Forall_impl; [done|]. by intros x [? _].
  - eapply Forall_impl; [done|]. by intros x [_ ?].
Qed.

Lemma norm_idem (p : string) : norm (norm p) = norm p.
Proof. unfold norm. by rewrite components_of_components by apply components_clean. Qed.


Lemma inits_self {A} (l : list A) : l ∈ inits l.
Proof.
  induction l as [|x l IH]; [by left|]. simpl. right. by apply list_elem_of_fmap_2.
Qed.




End Paths.

(** ** Copying one template file *)

Section CopyFile.
Import Py FS FSOps ScaffoldCommon.

Lemma find_absent {A} (f : A → bool) (l : list A) :
  (∀ x, x ∈ l → f x = false) → List.find f l = None.
Proof.
  induction l as [|x l IH]; intros H; [done|]. simpl.
  rewrite (H x) by (by left). apply IH. intros y Hy. apply H. by right.
Qed.

Lemma mkdir_p_fresh (p : string) (st : state) :
  (∀ q, q ∈ lineage p → w_files (st_world st) !! q = None) →
  mkdir_p p st
  = (inr (), State (World (list_to_set (lineage p) ∪ w_dirs (st_world st))
                          (w_files (st_world st)))
                   (created_files st) (created_dirs st)).
Proof.
  intros Hfree. unfold mkdir_p. rewrite run_bind. unfold get_world.
  rewrite find_absent; [done|].
  intros q Hq. apply bool_decide_eq_false. rewrite (Hfree q Hq). by intros [? ?].
Qed.




End CopyFile.

(** ** The directory structure of a scaffolded project *)

Section Directories.
Import Py FS FSOps ScaffoldCommon.

Lemma norm_in_lineage (d : string) : norm d ∈ lineage d.
Proof. unfold lineage, norm. apply list_elem_of_fmap_2, inits_self. Qed.

Lemma makes_dirs_ret : makes_dirs (mret ()) [].
Proof.
  intros st Hst. exists st. split; [done|]. split; [done|]. split; [done|].
  intros d Hd. by apply elem_of_nil in Hd.
Qed.

Lemma makes_dirs_weaken (m : M unit) (ds ds' : list string) :
  makes_dirs m ds → ds' ⊆ ds → makes_dirs m ds'.
Proof.
  intros Hm Hsub st Hst. destruct (Hm st Hst) as (st' & Hrun & Hst' & Hgrow & Hds).
  exists st'. repeat split; try done. intros d Hd. by apply Hds, Hsub.
Qed.

Lemma makes_dirs_bind (m1 m2 : M unit) (ds1 ds2 : list string) :
  makes_dirs m1 ds1 → makes_dirs m2 ds2 → makes_dirs (m1 ;; m2) (ds1 ++ ds2).
Proof.
  intros H1 H2 st Hst.
  destruct (H1 st Hst) as (st1 & Hrun1 & Hst1 & Hgrow1 & Hds1).
  destruct (H2 st1 Hst1) as (st2 & Hrun2 & Hst2 & Hgrow2 & Hds2).
  exists st2. rewrite run_bind, Hrun1. split; [done|]. split; [done|].
  split; [by etrans|]. intros d Hd. apply elem_of_app in Hd as [Hd | Hd].
  - by apply Hgrow2, Hds1.
  - by apply Hds2.
Qed.

Lemma makes_dirs_when (b : bool) (m : M unit) (ds : list string) :
  makes_dirs m ds → makes_dirs (when b m) (if b then ds else []).
Proof. destruct b; [done|]. intros _. apply makes_dirs_ret. Qed.

Lemma makes_dirs_for_each {A} (l : list A) (body : A → M unit) (f : A → list string) :
  (∀ x, x ∈ l → makes_dirs (body x) (f x)) →
  makes_dirs (for_each l body) (concat (f <$> l)).
Proof.
  induction l as [|x l IH]; intros Hbody; simpl.
  - apply makes_dirs_ret.
  - apply makes_dirs_bind.
    + apply Hbody. by left.
    + apply IH. intros y Hy. apply Hbody. by right.
Qed.

Lemma makes_dirs_mkdir_p (d : string) :
  clear_of_gitignore d → makes_dirs (mkdir_p d ;; note_dir d) [d].
Proof.
  intros Hclear st Hst. rewrite run_bind, mkdir_p_fresh.
  - eexists. split; [reflexivity|]. simpl. split; [done|].
    split; [apply union_subseteq_r|].
    intros d' Hd'. apply list_elem_of_singleton in Hd' as ->.
    apply elem_of_union_l, elem_of_list_to_set, norm_in_lineage.
  - intros q Hq. destruct (w_files (st_world st) !! q) eqn:E; [|done].
    destruct (Hclear q Hq). apply Hst. by rewrite E.
Qed.

Lemma makes_dirs_create_all (ds : list string) :
  (∀ d, d ∈ ds → clear_of_gitignore d) → makes_dirs (create_all ds) ds.
Proof.
  intros Hds. unfold create_all, create_directory.
  eapply makes_dirs_weaken.
  - apply (makes_dirs_for_each ds _ (λ d, [d])). intros d Hd.
    by apply makes_dirs_mkdir_p, Hds.
  - intros d Hd. apply (elem_of_concat d [d]); [by left|].
    by apply (list_elem_of_fmap_2 (λ d, [d])).
Qed.

Lemma components_under_components (x : string) :
  components ("components/" +:+ x) = "components" :: components x.
Proof.
  unfold components.
  change ("components/" +:+ x) with ("components" +:+ String "/" x).
  rewrite split_on_piece by done. rewrite filter_cons. by rewrite decide_True.
Qed.

Lemma clear_under_components (x : string) : clear_of_gitignore ("components/" +:+ x).
Proof.
  intros q Hq. unfold lineage in Hq. rewrite components_under_components in Hq.
  simpl in Hq. apply elem_of_cons in Hq as [-> | Hq]; [done|].
  apply list_elem_of_fmap in Hq as (pre & -> & Hpre).
  apply list_elem_of_fmap in Hpre as (pre' & -> & _).
  unfold of_components. destruct pre'; [done|].
  change (join "/" ("components" :: s :: pre'))
    with ("components" +:+ "/" +:+ join "/" (s :: pre')).
  by rewrite sapp_cons.
Qed.

Lemma clear_concrete (d : string) :
  forallb (λ q, bool_decide (q ≠ ".gitignore")) (lineage d) = true →
  clear_of_gitignore d.
Proof.
  intros H q Hq. rewrite forallb_forall in H.
  apply list_elem_of_In, H in Hq. by apply bool_decide_eq_true in Hq.
Qed.

Lemma clear_subdirs (dir_name : string) (tails : list string) (d : string) :
  d ∈ (λ t, "components/" +:+ dir_name +:+ t) <$> tails → clear_of_gitignore d.
Proof. intros (t & -> & _)%list_elem_of_fmap. apply clear_under_components. Qed.

Ltac clear_listed H :=
  split_members H; apply clear_concrete; vm_compute; reflexivity.


Lemma root_then {A} (k : M A) :
  (mkdir_p EmptyString ;; create_root_files ;; k) fresh = k rooted.
Proof.
  assert (mkdir_p EmptyString fresh
          = (inr (), State (World {[ EmptyString ]} ∅) [] [])) as E1
    by (vm_compute; reflexivity).
  assert (create_root_files (State (World {[ EmptyString ]} ∅) [] [])
          = (inr (), rooted)) as E2
    by (vm_compute; reflexivity).
  by rewrite run_bind, E1, run_bind, E2.
Qed.

Lemma rooted_only_gitignore : only_gitignore rooted.
Proof.
  intros q [x Hq]. simpl in Hq. by apply lookup_singleton_Some in Hq as [<- _].
Qed.



Lemma old_structure_makes (components_raw : list string) :
  makes_dirs (Scaffold.create_directory_structure (list_to_set components_raw))
    (planned_dirs_old components_raw).
Proof.
  unfold Scaffold.create_directory_structure, planned_dirs_old.
  eapply makes_dirs_weaken.
  - apply makes_dirs_bind; [apply (makes_dirs_create_all specs_dirs)|].
    { intros d Hd. clear_listed Hd. }
    apply makes_dirs_bind; [apply (makes_dirs_create_all config_dirs)|].
    { intros d Hd. clear_listed Hd. }
    apply makes_dirs_bind;
      [apply makes_dirs_when, (makes_dirs_create_all ["components/contract"])|].
    { intros d Hd. clear_listed Hd. }
    apply makes_dirs_bind;
      [apply makes_dirs_when, (makes_dirs_create_all Scaffold.server_dirs)|].
    { intros d Hd. clear_listed Hd. }
    apply makes_dirs_bind;
      [apply makes_dirs_when, (makes_dirs_create_all (webapp_subdirs "webapp"))|].
    { intros d Hd. by eapply clear_subdirs. }
    apply makes_dirs_bind;
      [apply makes_dirs_when, (makes_dirs_create_all ["components/helm"])|].
    { intros d Hd. clear_listed Hd. }
    apply makes_dirs_bind;
      [apply makes_dirs_when, (makes_dirs_create_all testing_dirs)|].
    { intros d Hd. clear_listed Hd. }
    apply makes_dirs_when, (makes_dirs_create_all [".github/workflows"]).
    intros d Hd. clear_listed Hd.
  - intros d Hd. rewrite !elem_of_app in Hd. rewrite !elem_of_app.
    destruct Hd as [Hd | [Hd | [Hd | Hd]]]; [by left | by right; left | |].
    + case_decide as Hin; [|by apply elem_of_nil in Hd].
      do 3 right. left. rewrite bool_decide_true; [done|].
      by apply elem_of_list_to_set.
    + case_decide as Hin; [|by apply elem_of_nil in Hd].
      do 4 right. left. rewrite bool_decide_true; [done|].
      by apply elem_of_list_to_set.
Qed.

Lemma old_template_phase_grows (cfg : Scaffold.config) (comps : gset string)
    (t : template_tree) :
  relates_dirs grows
    (Scaffold.copy_template_files cfg comps t ;; summary (Scaffold.target_dir cfg)).
Proof.
  unfold Scaffold.copy_template_files, summary.
  relates_steps ltac:(apply admits_grows).
Qed.

(** X18.  In a fresh target, scaffold.py makes the fixed specification
    and configuration directories whatever the component list and the
    templates are, and the fixed server and webapp directories when the
    list holds the token [server] or [webapp], also when a later step
    raises. *)
Theorem scaffold_makes_planned_dirs (cfg : Scaffold.config) (t : template_tree)
    (d : string) :
  d ∈ planned_dirs_old (Scaffold.components cfg) →
  norm d ∈ w_dirs (target_after (Scaffold.scaffold_project cfg t)).
Proof.
  intros Hd. unfold target_after, Scaffold.scaffold_project.
  rewrite root_then, run_bind.
  destruct (old_structure_makes (Scaffold.components cfg) rooted
              rooted_only_gitignore) as (st' & -> & _ & _ & Hds).
  destruct ((Scaffold.copy_template_files cfg _ t ;; summary _) st')
    as [r st''] eqn:E.
  apply old_template_phase_grows in E. simpl. by apply E, Hds.
Qed.

Lemma scaffold_makes_planned_dirs_witness :
  norm "components/server/src/telemetry"
    ∈ w_dirs (target_after (Scaffold.scaffold_project plain_config_old [])).
Proof.
  apply scaffold_makes_planned_dirs.
  apply (bool_decide_unpack _). vm_compute. exact I.
Defined.

End Directories.

(** ** The architecture overview of scaffolding.py *)

Section Architecture.
Import Py ScaffoldCommon Scaffolding.

Lemma starts_with_sapp_r (p a b : string) :
  starts_with p a = true → starts_with p (a +:+ b) = true.
Proof.
  revert a. induction p as [|x p IH]; intros [|y a]; try done.
  rewrite sapp_cons. simpl. case_decide; [apply IH | done].
Qed.

Lemma contains_sapp_l (p a b : string) :
  contains p a = true → contains p (a +:+ b) = true.
Proof.
  induction a as [|x a IH]; intros H.
  - destruct p; [by destruct b | done].
  - rewrite sapp_cons. simpl in *. apply orb_true_iff in H as [H | H].
    + rewrite <- sapp_cons, (starts_with_sapp_r _ _ _ H). done.
    + rewrite (IH H). apply orb_true_r.
Qed.

Lemma contains_middle (p a b : string) : contains p (a +:+ p +:+ b) = true.
Proof. apply contains_app, contains_here, starts_with_app. Qed.

Lemma contains_leading (a b c r : string) :
  contains (a +:+ b +:+ c) (a +:+ b +:+ c +:+ r) = true.
Proof.
  rewrite <- (sapp_assoc b c r), <- (sapp_assoc a (b +:+ c) r).
  apply contains_here, starts_with_app.
Qed.

Lemma foldl_sapp_keeps {A} (p : string) (g : A → string) (l : list A) (acc : string) :
  contains p acc = true → contains p (foldl (λ acc x, acc +:+ g x) acc l) = true.
Proof.
  revert acc. induction l as [|x l IH]; intros acc H; [done|].
  simpl. by apply IH, contains_sapp_l.
Qed.

Lemma foldl_sapp_has {A} (p : string) (g : A → string) (l : list A) (acc : string)
    (x : A) :
  x ∈ l → contains p (g x) = true →
  contains p (foldl (λ acc x, acc +:+ g x) acc l) = true.
Proof.
  revert acc. induction l as [|y l IH]; intros acc Hx Hg; [by apply elem_of_nil in Hx|].
  simpl. apply elem_of_cons in Hx as [<- | Hx].
  - by apply foldl_sapp_keeps, contains_app.
  - by apply IH.
Qed.

(** X19.  The architecture overview that scaffolding.py generates
    begins with the fixed heading for the project and mentions the
    directory of every server component and of every webapp component it
    is given, named or not. *)
Theorem arch_content_mentions (cfg : config) (component_types : gset string)
    (servers webapps : list parsed_component) (pc : parsed_component) :
  pc ∈ servers ∨ pc ∈ webapps →
  contains (mention (dir_name pc)) (arch_content cfg component_types servers webapps)
  = true
  ∧ contains (arch_header (vars cfg)) (arch_content cfg component_types servers webapps)
    = true.
Proof.
  intros Hpc. unfold arch_content. split.
  - destruct Hpc as [Hs | Hw].
    + apply foldl_sapp_keeps.
      apply (foldl_sapp_has _
               (λ server, "- **" +:+ PyMore.title (display_name server "Server")
                  +:+ "** (`components/" +:+ dir_name server
                  +:+ "/`): Node.js/TypeScript backend with CMDO architecture"
                  +:+ nl) _ _ pc Hs).
      unfold mention.
      change ("- **" +:+ PyMore.title (display_name pc "Server")
              +:+ "** (`components/" +:+ dir_name pc
              +:+ "/`): Node.js/TypeScript backend with CMDO architecture" +:+ nl)
        with ("- **" +:+ PyMore.title (display_name pc "Server")
              +:+ "** " +:+ "(`components/" +:+ dir_name pc
              +:+ "/`)" +:+ ": Node.js/TypeScript backend with CMDO architecture"
              +:+ nl).
      apply contains_app, contains_app, contains_app.
      apply contains_leading.
    + apply (foldl_sapp_has _
               (λ webapp, "- **" +:+ PyMore.title (display_name webapp "Webapp")
                  +:+ "** (`components/" +:+ dir_name webapp
                  +:+ "/`): React/TypeScript frontend with MVVM pattern" +:+ nl)
               _ _ pc Hw).
      unfold mention.
      change ("- **" +:+ PyMore.title (display_name pc "Webapp")
              +:+ "** (`components/" +:+ dir_name pc
              +:+ "/`): React/TypeScript frontend with MVVM pattern" +:+ nl)
        with ("- **" +:+ PyMore.title (display_name pc "Webapp")
              +:+ "** " +:+ "(`components/" +:+ dir_name pc
              +:+ "/`)" +:+ ": React/TypeScript frontend with MVVM pattern" +:+ nl).
      apply contains_app, contains_app, contains_app.
      apply contains_leading.
  - apply foldl_sapp_keeps, foldl_sapp_keeps.
    generalize (arch_header (vars cfg)). intros h.
    assert (∀ l acc, contains h acc = true →
              contains h (foldl (λ acc '(comp_type, d),
                                   if decide (comp_type ∈ component_types)
                                   then acc +:+ d +:+ nl else acc) acc l) = true)
      as Hstatic.
    { induction l as [|[ct d] l IH]; intros acc Hacc; [done|]. simpl.
      apply IH. case_decide; [by apply contains_sapp_l | done]. }
    apply Hstatic. apply contains_here.
    rewrite <- (sapp_empty_r h) at 2. apply starts_with_app.
Qed.

Lemma arch_content_mentions_witness :
  contains "(`components/server-api/`)"
    (arch_content two_servers_config
       (component_types_of two_servers)
       (get_components_by_type two_servers "server")
       (get_components_by_type two_servers "webapp")) = true.
Proof.
  apply (arch_content_mentions two_servers_config (component_types_of two_servers)
           (get_components_by_type two_servers "server")
           (get_components_by_type two_servers "webapp")
           (parse_component "server:api")).
  left. by left.
Defined.

End Architecture.

(** ** The CI workflow file *)

Section Workflow.
Import Py FS FSOps ScaffoldCommon.

Lemma bind_inr_inv {A B} (m : M A) (f : A → M B) (st st' : state) (r : B) :
  (m ≫= f) st = (inr r, st') →
  ∃ a st1, m st = (inr a, st1) ∧ f a st1 = (inr r, st').
Proof.
  rewrite run_bind. destruct (m st) as [[e|a] st1]; [done|]. intros H. by exists a, st1.
Qed.

Lemma write_text_inr_inv (p content : string) (st st' : state) (r : unit) :
  write_text p content st = (inr r, st') →
  w_files (st_world st') = <[norm p := content]> (w_files (st_world st)).
Proof.
  unfold write_text. rewrite run_bind. unfold get_world.
  repeat case_decide; try done. by intros [= <- <-].
Qed.

Lemma write_ci_inv (st st' : state) (r : unit) :
  (write_text ".github/workflows/ci.yaml" ci_content ;;
   note_file ".github/workflows/ci.yaml") st = (inr r, st') →
  w_files (st_world st') !! ".github/workflows/ci.yaml" = Some ci_content.
Proof.
  intros H. apply bind_inr_inv in H as (a & st1 & Hw & Hn).
  apply write_text_inr_inv in Hw. injection Hn as <- <-. simpl. rewrite Hw.
  apply lookup_insert_eq.
Qed.

Lemma summary_inv (target : string) (st st' : state) (r : result) :
  summary target st = (inr r, st') → st' = st ∧ success r = true.
Proof. unfold summary. rewrite run_bind. by intros [= <- <-]. Qed.

(** X20.  When the component list has the CI component and the run of
    a scaffolder returns, from whatever target and templates, the file
    [.github/workflows/ci.yaml] holds the one fixed workflow text: it is
    the same for every component list and names no component directory;
    the result reports success. *)
Theorem ci_workflow_is_fixed :
  (∀ (cfg : Scaffolding.config) (t : template_tree) (st st' : state) (r : result),
     "cicd" ∈ Scaffolding.component_types_of (Scaffolding.components cfg) →
     Scaffolding.scaffold_project cfg t st = (inr r, st') →
     w_files (st_world st') !! ".github/workflows/ci.yaml" = Some ci_content
     ∧ success r = true)
  ∧ (∀ (cfg : Scaffold.config) (t : template_tree) (st st' : state) (r : result),
       "cicd" ∈ Scaffold.components cfg →
       Scaffold.scaffold_project cfg t st = (inr r, st') →
       w_files (st_world st') !! ".github/workflows/ci.yaml" = Some ci_content
       ∧ success r = true)
  ∧ contains "components" ci_content = false.
Proof.
  split; [|split; [|vm_compute; reflexivity]].
  - intros cfg t st st' r Hci H. unfold Scaffolding.scaffold_project in H.
    do 3 (apply bind_inr_inv in H as (? & ? & _ & H)).
    apply bind_inr_inv in H as (a & s & Hcopy & Hsum).
    apply summary_inv in Hsum as [-> Hok]. split; [|done].
    unfold Scaffolding.copy_template_files in Hcopy. cbv zeta in Hcopy.
    do 8 (apply bind_inr_inv in Hcopy as (? & ? & _ & Hcopy)).
    rewrite bool_decide_true in Hcopy by done.
    by apply write_ci_inv in Hcopy.
  - intros cfg t st st' r Hci H. unfold Scaffold.scaffold_project in H.
    cbv zeta in H.
    do 3 (apply bind_inr_inv in H as (? & ? & _ & H)).
    apply bind_inr_inv in H as (a & s & Hcopy & Hsum).
    apply summary_inv in Hsum as [-> Hok]. split; [|done].
    unfold Scaffold.copy_template_files in Hcopy. cbv zeta in Hcopy.
    do 8 (apply bind_inr_inv in Hcopy as (? & ? & _ & Hcopy)).
    rewrite bool_decide_true in Hcopy by (by apply elem_of_list_to_set).
    by apply write_ci_inv in Hcopy.
Qed.

Lemma ci_workflow_is_fixed_witness :
  w_files (st_world (Scaffolding.scaffold_project ci_config [] fresh).2)
    !! ".github/workflows/ci.yaml" = Some ci_content.
Proof.
  destruct ci_workflow_is_fixed as [Hnew _].
  destruct (Scaffolding.scaffold_project ci_config [] fresh) as [r st'] eqn:E.
  assert (∃ res, r = inr res) as [res ->].
  { replace r with (Scaffolding.scaffold_project ci_config [] fresh).1 by (by rewrite E).
    eexists. vm_compute. reflexivity. }
  apply (Hnew ci_config [] fresh st' res); [|done].
  apply (bool_decide_unpack _). vm_compute. exact I.
Defined.

End Workflow.

(** ** The index lists every specification with a shown status *)

Section IndexRows.
Import PyMore GenerateIndex.

Lemma rows_member (l : list entry) (e : entry) : e ∈ l → row e ∈ rows l.
Proof.
  intros He. unfold rows. apply list_elem_of_fmap_2. by rewrite sorted_by_perm.
Qed.

Lemma section_member (l : list entry) (e : entry) :
  e ∈ l →
  row e ∈ active_section l ∧ row e ∈ deprecated_section l ∧ row e ∈ archived_section l.
Proof.
  intros He. pose proof (rows_member l e He) as Hrow.
  unfold active_section, deprecated_section, archived_section.
  destruct l as [|e0 l]; [by apply elem_of_nil in He|].
  rewrite !elem_of_app. repeat split.
  - right. by left.
  - right. left. by right.
  - right. by right.
Qed.

(** X21.  Every file of the walk that is not a reserved output and
    whose status, [active] when the header has none, is active,
    deprecated or archived has its row in the index. *)
Theorem index_lists_every_shown_spec (files : list md_file) (today : string)
    (f : md_file) :
  f ∈ files →
  path_name (file_path f) ∉ reserved_names →
  status_of f ∈ shown_statuses →
  row (entry_of f) ∈ index_lines files today.
Proof.
  intros Hf Hname Hstatus.
  assert (f ∈ spec_files files) as Hspec.
  { apply list_elem_of_filter. split; [by apply is_spec_file_spec | done]. }
  assert (entry_of f ∈ bucket (categorize (spec_files files)) (status_of f)) as Hin.
  { rewrite bucket_categorize_all. apply list_elem_of_fmap_2.
    by apply list_elem_of_filter. }
  destruct (section_member _ _ Hin) as (Ha & Hd & Hr).
  unfold index_lines. rewrite !elem_of_app.
  unfold shown_statuses in Hstatus.
  apply elem_of_cons in Hstatus as [E | Hstatus]; [rewrite E in *; tauto|].
  apply elem_of_cons in Hstatus as [E | Hstatus]; [rewrite E in *; tauto|].
  apply list_elem_of_singleton in Hstatus. rewrite Hstatus in *. tauto.
Qed.

Lemma index_lists_every_shown_spec_witness :
  "| B | feature | [b.md](b.md) | Unknown |  |  |" ∈ index_lines status_files "2024-05-01".
Proof.
  apply (index_lists_every_shown_spec status_files "2024-05-01"
           (MdFile "b.md" no_status_doc)).
  - by right; left.
  - apply (bool_decide_unpack _). vm_compute. exact I.
  - by left.
Defined.

End IndexRows.
